(** * A shallow embedding of tap-ants2 (tap.py, client.py, streams.py,
    create_csv.py) and the properties of its token cache, its dependent
    fetch orchestration and its record flattener. *)

From Stdlib Require Import String Ascii List ZArith Bool Lia.
Import ListNotations.
Open Scope string_scope.
Open Scope Z_scope.
Set Warnings "-register-all".

(** ** Python values as parsed from JSON bodies *)

(** A JSON value as [response.json()] hands it to the code: [None], booleans,
    integers, strings, lists and dicts (an association list kept in insertion
    order, as a Python dict is).  Floats are not modelled. *)
Inductive pyval : Type :=
| PNone : pyval
| PBool : bool -> pyval
| PInt : Z -> pyval
| PStr : string -> pyval
| PList : list pyval -> pyval
| PDict : list (string * pyval) -> pyval.

(** The Python exceptions the modelled code can raise. *)
Inductive exc : Type :=
| HTTPError : Z -> exc           (** [response.raise_for_status()] *)
| JSONDecodeError : exc          (** [response.json()] on a non-JSON body *)
| AttributeError : exc           (** e.g. [.get] or [.items] on a non-dict *)
| TypeError : exc.               (** e.g. [list(None)] *)

Inductive result (A : Type) : Type :=
| Ok : A -> result A
| Err : exc -> result A.
Arguments Ok {A} _.
Arguments Err {A} _.

(** Python truthiness ([if x:] / [if not x:]). *)
Definition truthy (v : pyval) : bool :=
  match v with
  | PNone => false
  | PBool b => b
  | PInt z => negb (z =? 0)
  | PStr s => negb (String.eqb s "")
  | PList l => negb (match l with [] => true | _ => false end)
  | PDict kvs => negb (match kvs with [] => true | _ => false end)
  end.

Fixpoint assoc_lookup (k : string) (kvs : list (string * pyval)) : option pyval :=
  match kvs with
  | [] => None
  | (k', v) :: r => if String.eqb k k' then Some v else assoc_lookup k r
  end.

(** [d.get(k, default)]: only dicts have [.get]. *)
Definition py_get (d : pyval) (k : string) (default : pyval) : result pyval :=
  match d with
  | PDict kvs =>
      match assoc_lookup k kvs with
      | Some v => Ok v
      | None => Ok default
      end
  | _ => Err AttributeError
  end.

(** [list(x)] and [for _ in x]: a list yields its elements, a dict its keys,
    a string its characters; anything else is not iterable. *)
Fixpoint string_chars (s : string) : list pyval :=
  match s with
  | EmptyString => []
  | String c r => PStr (String c EmptyString) :: string_chars r
  end.

Definition py_iter (x : pyval) : result (list pyval) :=
  match x with
  | PList l => Ok l
  | PDict kvs => Ok (map (fun kv => PStr (fst kv)) kvs)
  | PStr s => Ok (string_chars s)
  | _ => Err TypeError
  end.

(** ** [str(x)], as used by the f-strings that build URLs *)

Fixpoint string_of_uint (u : Decimal.uint) : string :=
  match u with
  | Decimal.Nil => ""
  | Decimal.D0 r => "0" ++ string_of_uint r
  | Decimal.D1 r => "1" ++ string_of_uint r
  | Decimal.D2 r => "2" ++ string_of_uint r
  | Decimal.D3 r => "3" ++ string_of_uint r
  | Decimal.D4 r => "4" ++ string_of_uint r
  | Decimal.D5 r => "5" ++ string_of_uint r
  | Decimal.D6 r => "6" ++ string_of_uint r
  | Decimal.D7 r => "7" ++ string_of_uint r
  | Decimal.D8 r => "8" ++ string_of_uint r
  | Decimal.D9 r => "9" ++ string_of_uint r
  end.

Definition string_of_Z (z : Z) : string :=
  match Z.to_int z with
  | Decimal.Pos u => string_of_uint u
  | Decimal.Neg u => "-" ++ string_of_uint u
  end.

Fixpoint join (sep : string) (l : list string) : string :=
  match l with
  | [] => ""
  | [x] => x
  | x :: r => x ++ sep ++ join sep r
  end.

(** [repr(x)]; quotes inside strings are not escaped in this model. *)
Fixpoint py_repr (v : pyval) : string :=
  match v with
  | PNone => "None"
  | PBool true => "True"
  | PBool false => "False"
  | PInt z => string_of_Z z
  | PStr s => "'" ++ s ++ "'"
  | PList l => "[" ++ join ", " (map py_repr l) ++ "]"
  | PDict kvs =>
      "{" ++ join ", " (map (fun kv => "'" ++ fst kv ++ "': " ++ py_repr (snd kv)) kvs)
          ++ "}"
  end.

Definition py_str (v : pyval) : string :=
  match v with
  | PStr s => s
  | _ => py_repr v
  end.

(** ** create_csv.flatten_dict *)

(** [dict(items)]: a repeated key keeps its first position and takes the
    last value. *)
Fixpoint dict_set (k : string) (v : pyval) (d : list (string * pyval))
  : list (string * pyval) :=
  match d with
  | [] => [(k, v)]
  | (k', v') :: r => if String.eqb k k' then (k', v) :: r else (k', v') :: dict_set k v r
  end.

Fixpoint dict_of_items_from (acc items : list (string * pyval)) : list (string * pyval) :=
  match items with
  | [] => acc
  | (k, v) :: r => dict_of_items_from (dict_set k v acc) r
  end.

Definition dict_of_items (items : list (string * pyval)) : list (string * pyval) :=
  dict_of_items_from [] items.

(** [f"{parent_key}{sep}{k}" if parent_key else k] *)
Definition new_key (parent_key sep k : string) : string :=
  if String.eqb parent_key "" then k else parent_key ++ sep ++ k.

(** The body of [flatten_dict] on a dict [d] ([isinstance(v, MutableMapping)]
    holds exactly for the dict values). *)
Fixpoint flatten_items (d : pyval) (parent_key sep : string) {struct d}
  : list (string * pyval) :=
  match d with
  | PDict kvs =>
      dict_of_items
        ((fix loop (kvs : list (string * pyval)) : list (string * pyval) :=
            match kvs with
            | [] => []
            | (k, v) :: r =>
                let nk := new_key parent_key sep k in
                List.app
                  match v with
                  | PDict _ => flatten_items v nk sep
                  | _ => [(nk, v)]
                  end
                  (loop r)
            end) kvs)
  | _ => []
  end.

(** [flatten_dict(d, parent_key='', sep='.')]: [d.items()] raises on a
    non-dict. *)
Definition flatten_dict (d : pyval) (parent_key sep : string) : result pyval :=
  match d with
  | PDict _ => Ok (PDict (flatten_items d parent_key sep))
  | _ => Err AttributeError
  end.

Definition flatten (d : pyval) : result pyval := flatten_dict d "" ".".

(** ** HTTP and the process state *)

(** The requests the code issues: [requests.get(url, headers=...)], whose
    [Authorization] header we keep, and the form-encoded [requests.post]. *)
Inductive request : Type :=
| Get : string -> string -> request                (** url, Authorization *)
| Post : string -> list (string * string) -> request.  (** url, form data *)

(** A response: its status and its body as [response.json()] parses it
    ([None] when the body is not JSON). *)
Record response : Type := mk_response {
  status : Z;
  body : option pyval
}.

(** The process state: the class variable [TapAnts2._token], the wall clock
    read by [datetime.now()], and the exchanges made so far. *)
Record St : Type := mk_st {
  tap_token : pyval;
  clock : Z;
  log : list (request * response)
}.

(** Raising code that threads state: an exception leaves the state (and so
    the requests already sent) as it was when it was raised. *)
Definition M (A : Type) : Type := St -> result A * St.

Definition ret {A} (a : A) : M A := fun st => (Ok a, st).

Definition bind {A B} (m : M A) (k : A -> M B) : M B :=
  fun st =>
    match m st with
    | (Ok a, st') => k a st'
    | (Err e, st') => (Err e, st')
    end.

Definition lift {A} (r : result A) : M A := fun st => (r, st).

Notation "x <- m ;; k" := (bind m (fun x => k))
  (at level 61, m at next level, right associativity).
Notation "m ;;; k" := (bind m (fun _ => k))
  (at level 61, right associativity).

(** [response.raise_for_status()] of requests: 4xx and 5xx raise. *)
Definition raise_for_status (r : response) : M unit :=
  if (400 <=? status r) && (status r <? 600)
  then lift (Err (HTTPError (status r)))
  else ret tt.

(** [response.json()] *)
Definition json (r : response) : M pyval :=
  match body r with
  | Some v => ret v
  | None => lift (Err JSONDecodeError)
  end.

Definition form_token_request (username password : string) : list (string * string) :=
  [("grant_type", "password"); ("username", username); ("password", password)].

Section Tap.

(** The remote API: its answer to a request may depend on everything
    exchanged before. *)
Variable server : list (request * response) -> request -> response.

(** [config["api_url"]], [config["username"]], [config["password"]] *)
Variables api_url username password : string.

(** [requests.get] / [requests.post]: one exchange with the server. *)
Definition send (q : request) : M response :=
  fun st =>
    let r := server (log st) q in
    (Ok r, mk_st (tap_token st) (clock st) (log st ++ [(q, r)])).

Definition read_token : M pyval := fun st => (Ok (tap_token st), st).

Definition write_token (t : pyval) : M unit :=
  fun st => (Ok tt, mk_st t (clock st) (log st)).

(** [TapAnts2.get_token] (tap.py) *)
Definition get_token : M pyval :=
  tok <- read_token ;;
  (if negb (truthy tok) then
     response <- send (Post (api_url ++ "/token") (form_token_request username password)) ;;
     raise_for_status response ;;;
     j <- json response ;;
     t <- lift (py_get j "access_token" PNone) ;;
     write_token t
   else ret tt) ;;;
  read_token.

(** [ActiveAntsStream.http_headers]: the [Authorization] header. *)
Definition http_headers : M string :=
  token <- get_token ;;
  ret ("Bearer " ++ py_str token).

(** [ActiveAntsStream.get_records] for a stream with the given [path]
    ([self.get_url(context)] is [url_base + path]). *)
Definition stream_get_records (path : string) : M pyval :=
  let url := api_url ++ path in
  headers <- http_headers ;;
  response <- send (Get url headers) ;;
  raise_for_status response ;;;
  j <- json response ;;
  lift (py_get j "data" (PList [])).

Definition orders_path : string := "/v3/orders".

(** One dependent fetch of a derived stream: GET, raise, unwrap [data]
    with the single-entity default [{}]. *)
Definition fetch_one (url : string) : M pyval :=
  headers <- http_headers ;;
  response <- send (Get url headers) ;;
  raise_for_status response ;;;
  j <- json response ;;
  lift (py_get j "data" (PDict [])).

Definition order_url (order_id : pyval) : string :=
  api_url ++ "/v3/orders/" ++ py_str order_id.

Definition orderitem_url (item_id : pyval) : string :=
  api_url ++ "/v3/orderitems/" ++ py_str item_id.

(** The loop of [OrderDetailsStream.get_records]. *)
Fixpoint order_details_loop (orders : list pyval) : M (list pyval) :=
  match orders with
  | [] => ret []
  | order :: rest =>
      order_id <- lift (py_get order "id" PNone) ;;
      here <- (if truthy order_id then
                 data <- fetch_one (order_url order_id) ;; ret [data]
               else ret []) ;;
      records <- order_details_loop rest ;;
      ret (List.app here records)
  end.

(** [OrderDetailsStream.get_records] *)
Definition order_details_get_records : M (list pyval) :=
  orders_v <- stream_get_records orders_path ;;
  orders <- lift (py_iter orders_v) ;;
  order_details_loop orders.

(** The inner loop of [OrderItemsStream.get_records]. *)
Fixpoint order_items_inner (items : list pyval) : M (list pyval) :=
  match items with
  | [] => ret []
  | item :: rest =>
      item_id <- lift (py_get item "id" PNone) ;;
      here <- (if truthy item_id then
                 data <- fetch_one (orderitem_url item_id) ;; ret [data]
               else ret []) ;;
      records <- order_items_inner rest ;;
      ret (List.app here records)
  end.

(** [order_detail.get("relationships", {}).get("orderItems", {}).get("data", [])] *)
Definition item_refs (order_detail : pyval) : result pyval :=
  match py_get order_detail "relationships" (PDict []) with
  | Ok rel =>
      match py_get rel "orderItems" (PDict []) with
      | Ok oi => py_get oi "data" (PList [])
      | Err e => Err e
      end
  | Err e => Err e
  end.

(** The outer loop of [OrderItemsStream.get_records]. *)
Fixpoint order_items_loop (details : list pyval) : M (list pyval) :=
  match details with
  | [] => ret []
  | order_detail :: rest =>
      refs <- lift (item_refs order_detail) ;;
      items <- lift (py_iter refs) ;;
      here <- order_items_inner items ;;
      records <- order_items_loop rest ;;
      ret (List.app here records)
  end.

(** [OrderItemsStream.get_records]: [list(...)] of the Python list returned by
    [OrderDetailsStream.get_records] is that list. *)
Definition order_items_get_records : M (list pyval) :=
  details <- order_details_get_records ;;
  order_items_loop details.

(** ** The token refresh of create_csv.py *)

(** The [token] and [token_expires_at] entries of the config file; the
    ISO-8601 timestamp written by [isoformat()] and read back by
    [fromisoformat()] is kept as the instant it denotes (seconds). *)
Record config : Type := mk_config {
  cfg_token : option pyval;
  cfg_token_expires_at : option Z
}.

Definition read_clock : M Z := fun st => (Ok (clock st), st).

(** Time passing between two calls (the environment, not the code). *)
Definition wait (d : Z) : M unit :=
  fun st => (Ok tt, mk_st (tap_token st) (clock st + d) (log st)).

(** [create_csv.get_token(api_url, username, password)] *)
Definition csv_get_token : M (pyval * pyval) :=
  response <- send (Post (api_url ++ "/token") (form_token_request username password)) ;;
  raise_for_status response ;;;
  j <- json response ;;
  token <- lift (py_get j "access_token" PNone) ;;
  j' <- json response ;;
  expires_in <- lift (py_get j' "expires_in" PNone) ;;
  ret (token, expires_in).

(** [create_csv.is_token_valid]: [fromisoformat(expiration_time) > now()]. *)
Definition is_token_valid (expiration_time : Z) : M bool :=
  now <- read_clock ;;
  ret (now <? expiration_time).

(** [timedelta(seconds=expires_in)] on the values [pyval] has: ints (and
    bools) are accepted; JSON floats, which [timedelta] also accepts, are
    not modelled. *)
Definition seconds_of (expires_in : pyval) : result Z :=
  match expires_in with
  | PInt z => Ok z
  | PBool b => Ok (if b then 1 else 0)
  | _ => Err TypeError
  end.

(** [update_config_with_token] followed by [config['token'] = token]. *)
Definition update_config_with_token (cfg : config) (token expires_in : pyval) : M config :=
  d <- lift (seconds_of expires_in) ;;
  now <- read_clock ;;
  ret (mk_config (Some token) (Some (now + d))).

(** The token step of create_csv's [__main__]. *)
Definition csv_startup (cfg : config) : M config :=
  let refresh :=
    p <- csv_get_token ;;
    update_config_with_token cfg (fst p) (snd p) in
  match cfg_token cfg, cfg_token_expires_at cfg with
  | Some _, Some e =>
      valid <- is_token_valid e ;;
      if valid then ret cfg else refresh
  | _, _ => refresh
  end.

End Tap.

(** ** Observing runs *)

Definition run {A} (m : M A) (st : St) : result A * St := m st.

(** The credential exchanges among logged requests. *)
Definition is_post (e : request * response) : bool :=
  match fst e with Post _ _ => true | Get _ _ => false end.

Definition posts (l : list (request * response)) : list (request * response) :=
  filter is_post l.

(** The URLs of the GET requests of a log, in order. *)
Fixpoint get_urls (l : list (request * response)) : list string :=
  match l with
  | [] => []
  | (Get u _, _) :: r => u :: get_urls r
  | (Post _ _, _) :: r => get_urls r
  end.

(** The responses to the GET requests of a log, in order. *)
Fixpoint get_responses (l : list (request * response)) : list response :=
  match l with
  | [] => []
  | (Get _ _, r) :: l' => r :: get_responses l'
  | (Post _ _, _) :: l' => get_responses l'
  end.

(** Calling [get_token] [n] times in a row. *)
Fixpoint get_token_n (server : list (request * response) -> request -> response)
    (api_url username password : string) (n : nat) : M (list pyval) :=
  match n with
  | O => ret []
  | S n' =>
      t <- get_token server api_url username password ;;
      ts <- get_token_n server api_url username password n' ;;
      ret (t :: ts)
  end.

(** ** Helpers for the statements *)

(** [order.get("id")] as the orchestration reads it. *)
Definition id_of (record : pyval) : pyval :=
  match py_get record "id" PNone with Ok v => v | Err _ => PNone end.

Definition id_truthy (record : pyval) : bool := truthy (id_of record).

(** [response.json().get('data', default)] when it succeeds. *)
Definition data_of (r : response) (default : pyval) : option pyval :=
  match body r with
  | Some j => match py_get j "data" default with Ok d => Some d | Err _ => None end
  | None => None
  end.

(** The item references [order_items] iterates for one order detail. *)
Definition refs_of (order_detail : pyval) : list pyval :=
  match item_refs order_detail with
  | Ok v => match py_iter v with Ok l => l | Err _ => [] end
  | Err _ => []
  end.

(** create_csv's [__main__] refreshes unless [token] and [token_expires_at]
    are both stored and [is_token_valid] holds. *)
Definition token_expired (cfg : config) (now : Z) : bool :=
  match cfg_token cfg, cfg_token_expires_at cfg with
  | Some _, Some e => e <=? now
  | _, _ => true
  end.

(** A logged exchange whose response makes [raise_for_status] raise. *)
Definition raises (e : request * response) : bool :=
  (400 <=? status (snd e)) && (status (snd e) <? 600).

(** A run stops at the first raising response: nothing is sent after it
    and the run ends in [HTTPError] with its status. *)
Definition stops_at_failure {A} (m : M A) : Prop :=
  forall st r st', m st = (r, st') ->
  exists new, log st' = (log st ++ new)%list /\
    forall e, In e new -> raises e = true ->
    exists pre, new = (pre ++ [e])%list /\ r = Err (HTTPError (status (snd e))).

(** ** Sample inputs *)

Definition sample_api : string := "https://shopapitest.activeants.nl".

(** A server whose token endpoint answers [status] with [token_body] and
    whose resource endpoints answer with an empty list. *)
Definition token_server (st : Z) (token_body : pyval)
  (h : list (request * response)) (q : request) : response :=
  match q with
  | Post _ _ => mk_response st (Some token_body)
  | Get _ _ => mk_response 200 (Some (PDict [("data", PList [])]))
  end.

Definition good_token_body : pyval :=
  PDict [("access_token", PStr "tok"); ("expires_in", PInt 3600)].

Definition st0 : St := mk_st PNone 0 [].

(** A shop: [GET /v3/orders] answers [orders_data]; every other GET to [u]
    answers [status_of u] with [entity u] as its [data]. *)
Definition shop_server (orders_data : pyval) (status_of : string -> Z)
  (entity : string -> pyval) (h : list (request * response)) (q : request) : response :=
  match q with
  | Post _ _ => mk_response 200 (Some good_token_body)
  | Get u _ =>
      if String.eqb u (sample_api ++ orders_path)
      then mk_response 200 (Some (PDict [("data", orders_data)]))
      else mk_response (status_of u) (Some (PDict [("data", entity u)]))
  end.

Definition all_ok (u : string) : Z := 200.

Definition status_on (bad : string) (code : Z) (u : string) : Z :=
  if String.eqb u bad then code else 200.

(** A server whose JSON bodies carry no [data] field at all. *)
Definition bare_server (h : list (request * response)) (q : request) : response :=
  match q with
  | Post _ _ => mk_response 200 (Some good_token_body)
  | Get _ _ => mk_response 200 (Some (PDict []))
  end.

Definition plain_entity (u : string) : pyval := PDict [("self", PStr u)].

(** An order detail referencing the order items 11 and 0. *)
Definition detail_with_items (u : string) : pyval :=
  PDict [("self", PStr u);
         ("relationships",
          PDict [("orderItems",
                  PDict [("data", PList [PDict [("id", PInt 11)]; PDict [("id", PInt 0)]])])])].

Definition sample_orders : pyval :=
  PList [PDict [("id", PInt 1)]; PDict [("id", PNone)]; PDict [("id", PInt 3)]].

(** A record is kept by the derived fetches' id test unless its [id] is
    read and is falsy. *)
Definition keep_record (x : pyval) : bool :=
  match py_get x "id" PNone with Ok v => truthy v | Err _ => true end.

Definition csv_sample_records : list pyval :=
  [PDict [("id", PInt 1)]; PDict [("id", PNone)]; PDict [("id", PInt 3)]].

(** A product list whose second product has a plain string under
    [attributes]. *)
Definition bad_product_entity (u : string) : pyval :=
  PList [PDict [("id", PInt 1); ("attributes", PDict [("sku", PStr "A1")])];
         PDict [("id", PInt 2); ("attributes", PStr "x")]].

(** ** TapAnts2.transform_record (tap.py) *)

(** [s.split(sep)] for a one-character separator: empty pieces are kept. *)
Fixpoint py_split (sep : Ascii.ascii) (s : string) : list string :=
  match s with
  | EmptyString => [""]
  | String c r =>
      let rest := py_split sep r in
      if Ascii.eqb c sep then "" :: rest
      else match rest with
           | [] => [String c ""]
           | h :: t => String c h :: t
           end
  end.

(** [for key in keys: value = value.get(key) if value else None] *)
Fixpoint walk_keys (value : pyval) (keys : list string) : result pyval :=
  match keys with
  | [] => Ok value
  | key :: rest =>
      if truthy value then
        match py_get value key PNone with
        | Ok v => walk_keys v rest
        | Err e => Err e
        end
      else walk_keys PNone rest
  end.

Fixpoint transform_fields (record : pyval) (schema : list string)
  (flattened_record : list (string * pyval)) : result (list (string * pyval)) :=
  match schema with
  | [] => Ok flattened_record
  | field :: rest =>
      match walk_keys record (py_split "."%char field) with
      | Ok value => transform_fields record rest (dict_set field value flattened_record)
      | Err e => Err e
      end
  end.

Definition transform_record (record : pyval) (schema : list string) : result pyval :=
  match transform_fields record schema [] with
  | Ok d => Ok (PDict d)
  | Err e => Err e
  end.

(** ** Error handling combinators *)

(** [try: ... except requests.exceptions.HTTPError: ...] *)
Definition catch_http {A} (m : M A) (handler : Z -> M A) : M A :=
  fun st =>
    match m st with
    | (Err (HTTPError s), st') => handler s st'
    | other => other
    end.

(** [try: ... except Exception: ...] *)
Definition catch_all {A} (m : M A) (handler : exc -> M A) : M A :=
  fun st =>
    match m st with
    | (Err e, st') => handler e st'
    | other => other
    end.

Fixpoint map_m {A B} (f : A -> M B) (l : list A) : M (list B) :=
  match l with
  | [] => ret []
  | x :: r => y <- f x ;; ys <- map_m f r ;; ret (y :: ys)
  end.

Section Exports.
Variable server : list (request * response) -> request -> response.
Variables api_url username password : string.

(** [create_csv.fetch_order_details(order_id, token, api_url)]: the token is
    the one stored in the config, an [HTTPError] is printed and gives [{}]. *)
Definition csv_fetch_order_details (order_id token : pyval) : M pyval :=
  catch_http
    (let url := api_url ++ "/v3/orders/" ++ py_str order_id in
     response <- send server (Get url ("Bearer " ++ py_str token)) ;;
     raise_for_status response ;;;
     j <- json response ;;
     lift (py_get j "data" (PDict [])))
    (fun _ => ret (PDict [])).

(** The order-details loop of [create_csv.fetch_and_save_csv]. *)
Fixpoint csv_order_details_loop (token : pyval) (records : list pyval) : M (list pyval) :=
  match records with
  | [] => ret []
  | record :: rest =>
      order_id <- lift (py_get record "id" PNone) ;;
      here <- (if truthy order_id then
                 details <- csv_fetch_order_details order_id token ;;
                 if truthy details then
                   row <- lift (flatten_dict details "" ".") ;; ret [row]
                 else ret []
               else ret []) ;;
      order_details <- csv_order_details_loop token rest ;;
      ret (List.app here order_details)
  end.

(** The streams of [TapAnts2.discover_streams], by name, each with
    [list(stream.get_records(context=None))]. *)
Definition discovered_streams : list (string * M (list pyval)) :=
  [("products", v <- stream_get_records server api_url username password "/v3/products" ;;
                lift (py_iter v));
   ("orders", v <- stream_get_records server api_url username password orders_path ;;
              lift (py_iter v));
   ("order_details", order_details_get_records server api_url username password)].

Fixpoint find_stream (name : string) (streams : list (string * M (list pyval)))
  : option (M (list pyval)) :=
  match streams with
  | [] => None
  | (n, m) :: r => if String.eqb n name then Some m else find_stream name r
  end.

(** [TapAnts2._sync_stream_to_csv(stream_name, output_file, schema)]: the
    rows handed to [df.to_csv], or [None] when nothing is written. *)
Definition sync_stream_to_csv (stream_name : string) (schema : list string)
  : M (option (list pyval)) :=
  catch_all
    (records <- (match find_stream stream_name discovered_streams with
                 | Some get_records => get_records
                 | None => ret []
                 end) ;;
     match records with
     | [] => ret None
     | _ =>
         transformed <- map_m (fun record => lift (transform_record record schema)) records ;;
         ret (Some transformed)
     end)
    (fun _ => ret None).

(** [TapAnts2._fetch_order_details]: unlike create_csv's version it catches
    nothing. *)
Definition tap_fetch_order_details (order_id token : pyval) : M pyval :=
  let url := api_url ++ "/v3/orders/" ++ py_str order_id in
  response <- send server (Get url ("Bearer " ++ py_str token)) ;;
  raise_for_status response ;;;
  j <- json response ;;
  lift (py_get j "data" (PDict [])).

(** The loop of [TapAnts2._sync_order_details_to_csv].  The class defines no
    [ORDER_DETAILS_SCHEMA], so evaluating [self.ORDER_DETAILS_SCHEMA] (after
    the details are fetched) raises [AttributeError]. *)
Fixpoint sync_order_details_loop (token : pyval) (orders : list pyval) : M (list pyval) :=
  match orders with
  | [] => ret []
  | order :: rest =>
      order_id <- lift (py_get order "id" PNone) ;;
      here <- (if truthy order_id then
                 details <- tap_fetch_order_details order_id token ;;
                 schema <- lift (@Err (list string) AttributeError) ;;
                 row <- lift (transform_record details schema) ;;
                 ret [row]
               else ret []) ;;
      order_details <- sync_order_details_loop token rest ;;
      ret (List.app here order_details)
  end.

(** [TapAnts2._sync_order_details_to_csv], with [self.config["token"]]:
    the rows handed to [df.to_csv]. *)
Definition sync_order_details_to_csv (token : pyval) : M (list pyval) :=
  orders_v <- stream_get_records server api_url username password orders_path ;;
  orders <- lift (py_iter orders_v) ;;
  sync_order_details_loop token orders.

End Exports.

(** ** Helpers for the further statements *)

Definition is_dict (v : pyval) : bool :=
  match v with PDict _ => true | _ => false end.

Definition leaf_pair (kv : string * pyval) : Prop := is_dict (snd kv) = false.

(** [expires_in] values that [timedelta(seconds=...)] refuses: [None] (also
    what a missing key gives), strings, lists and dicts. *)
Definition not_a_number (v : pyval) : bool :=
  match v with
  | PNone | PStr _ | PList _ | PDict _ => true
  | PBool _ | PInt _ => false
  end.

(** The item list [flatten_dict] builds before [dict(items)]. *)
Fixpoint flat_loop (parent_key sep : string) (kvs : list (string * pyval))
  : list (string * pyval) :=
  match kvs with
  | [] => []
  | (k, v) :: r =>
      List.app
        match v with
        | PDict _ => flatten_items v (new_key parent_key sep k) sep
        | _ => [(new_key parent_key sep k, v)]
        end
        (flat_loop parent_key sep r)
  end.

(** A dotted path followed through dicts. *)
Fixpoint path_get (v : pyval) (keys : list string) : option pyval :=
  match keys with
  | [] => Some v
  | k :: rest =>
      match v with
      | PDict kvs => match assoc_lookup k kvs with Some w => path_get w rest | None => None end
      | _ => None
      end
  end.

(** The path meets a missing key or a falsy value before its end. *)
Fixpoint path_blocked (v : pyval) (keys : list string) : bool :=
  match keys with
  | [] => false
  | k :: rest =>
      if truthy v then
        match v with
        | PDict kvs => match assoc_lookup k kvs with Some w => path_blocked w rest | None => true end
        | _ => false
        end
      else true
  end.

(** The path meets a truthy value that is not a dict before its end. *)
Fixpoint path_hits_scalar (v : pyval) (keys : list string) : bool :=
  match keys with
  | [] => false
  | k :: rest =>
      if truthy v then
        match v with
        | PDict kvs => match assoc_lookup k kvs with Some w => path_hits_scalar w rest | None => false end
        | _ => true
        end
      else false
  end.

(** What create_csv's order-details loop keeps of one response. *)
Definition csv_row (r : response) : list pyval :=
  if (400 <=? status r) && (status r <? 600) then []
  else match data_of r (PDict []) with
       | Some d =>
           if truthy d then
             match flatten_dict d "" "." with Ok f => [f] | Err _ => [] end
           else []
       | None => []
       end.

Definition is_get_with (header : string) (e : request * response) : bool :=
  match fst e with Get _ h => String.eqb h header | Post _ _ => false end.

(** The run never raises [HTTPError]. *)
Definition no_http_error {A} (m : M A) : Prop :=
  forall st r st', m st = (r, st') -> forall s, r <> Err (HTTPError s).

(** From a state caching [t], the run keeps [t] cached and only sends GETs
    authorised with it. *)
Definition authed {A} (t : pyval) (m : M A) : Prop :=
  forall st r st', tap_token st = t -> m st = (r, st') ->
  tap_token st' = t /\
  exists new, log st' = (log st ++ new)%list /\
    Forall (fun e => is_get_with ("Bearer " ++ py_str t) e = true) new.

(** ** Token cache *)

Section TokenLemmas.
Variable server : list (request * response) -> request -> response.
Variables api_url username password : string.

Lemma bind_read_token {A} (m : M A) st t st' :
  bind m (fun _ => read_token) st = (Ok t, st') -> tap_token st' = t.
Proof.
  unfold bind. destruct (m st) as [[a|e] s1]; intros H.
  - unfold read_token in H. inversion H; reflexivity.
  - discriminate H.
Qed.

Lemma get_token_result st t st' :
  get_token server api_url username password st = (Ok t, st') -> tap_token st' = t.
Proof.
  intros H. unfold get_token in H. unfold bind at 1 in H. simpl in H.
  eapply bind_read_token; exact H.
Qed.

Lemma get_token_cached st :
  truthy (tap_token st) = true ->
  get_token server api_url username password st = (Ok (tap_token st), st).
Proof.
  intros H. unfold get_token, bind, read_token. simpl. rewrite H. reflexivity.
Qed.

End TokenLemmas.

(** Case analysis on the innermost tests of an unfolded run. *)
Ltac destruct_matches :=
  repeat match goal with
         | |- context [match ?x with _ => _ end] =>
             lazymatch x with
             | context [match _ with _ => _ end] => fail
             | _ => destruct x eqn:?; simpl
             end
         end.

(** C1: once [get_token] has returned a truthy token, every later call
    returns that same token and sends no further request (the state, and so
    the request log, is unchanged). *)
Theorem get_token_idempotent server api_url username password st t st1 :
  get_token server api_url username password st = (Ok t, st1) ->
  truthy t = true ->
  forall n, get_token_n server api_url username password n st1 = (Ok (repeat t n), st1).
Proof.
  intros Hget Ht.
  pose proof (get_token_result server api_url username password st t st1 Hget) as Htok.
  subst t. induction n as [|n IH]; simpl.
  - reflexivity.
  - unfold bind. rewrite get_token_cached by exact Ht. rewrite IH. reflexivity.
Qed.

Lemma get_token_idempotent_witness :
  get_token_n (token_server 200 good_token_body) sample_api "u" "p" 3
    (snd (get_token (token_server 200 good_token_body) sample_api "u" "p" st0))
  = (Ok (repeat (PStr "tok") 3),
     snd (get_token (token_server 200 good_token_body) sample_api "u" "p" st0)).
Proof.
  apply (get_token_idempotent (token_server 200 good_token_body) sample_api "u" "p" st0
           (PStr "tok")); vm_compute; reflexivity.
Defined.

(** C5 (counterexample): a 200 answer without [access_token] is not an
    error: [get_token] returns [None]. *)
Lemma get_token_missing_access_token :
  fst (get_token (token_server 200 (PDict [("expires_in", PInt 3600)])) sample_api "u" "p" st0)
  = Ok PNone.
Proof. vm_compute. reflexivity. Qed.

(** C5 (amended): with no truthy token cached, [get_token] sends one
    exchange; a 4xx/5xx answer raises [HTTPError] with its status, and a
    non-raising answer whose JSON dict lacks [access_token] makes [get_token]
    return (and cache) [None]. *)
Theorem get_token_exchange_outcomes server api_url username password st :
  truthy (tap_token st) = false ->
  let q := Post (api_url ++ "/token") (form_token_request username password) in
  let resp := server (log st) q in
  ((400 <=? status resp) && (status resp <? 600) = true ->
   get_token server api_url username password st
   = (Err (HTTPError (status resp)), mk_st (tap_token st) (clock st) (log st ++ [(q, resp)]))) /\
  ((400 <=? status resp) && (status resp <? 600) = false ->
   forall kvs, body resp = Some (PDict kvs) -> assoc_lookup "access_token" kvs = None ->
   get_token server api_url username password st
   = (Ok PNone, mk_st PNone (clock st) (log st ++ [(q, resp)]))).
Proof.
  intros Hf q resp. split.
  - intros Hs. unfold get_token, bind, read_token. simpl. rewrite Hf. simpl.
    unfold raise_for_status. fold q. fold resp. rewrite Hs. reflexivity.
  - intros Hs kvs Hb Hl. unfold get_token, bind, read_token. simpl. rewrite Hf. simpl.
    unfold raise_for_status. fold q. fold resp. rewrite Hs. simpl.
    unfold json. rewrite Hb. simpl. rewrite Hl. reflexivity.
Qed.

Lemma get_token_exchange_outcomes_witness :
  get_token (token_server 200 (PDict [("expires_in", PInt 3600)])) sample_api "u" "p" st0
  = (Ok PNone, mk_st PNone 0
       [(Post (sample_api ++ "/token") (form_token_request "u" "p"),
         mk_response 200 (Some (PDict [("expires_in", PInt 3600)])))]).
Proof.
  apply (proj2 (get_token_exchange_outcomes (token_server 200 (PDict [("expires_in", PInt 3600)]))
                  sample_api "u" "p" st0 eq_refl) eq_refl [("expires_in", PInt 3600)] eq_refl eq_refl).
Defined.

(** C6 (counterexample): [TapAnts2.get_token] discards [expires_in]; a
    token obtained at time 0 with [expires_in = 3600] is still returned at
    time 4000, with no second exchange. *)
Lemma get_token_ignores_expiry :
  let r := run (t1 <- get_token (token_server 200 good_token_body) sample_api "u" "p" ;;
                wait 4000 ;;;
                t2 <- get_token (token_server 200 good_token_body) sample_api "u" "p" ;;
                ret (t1, t2)) st0 in
  fst r = Ok (PStr "tok", PStr "tok") /\ clock (snd r) = 4000 /\
  length (posts (log (snd r))) = 1%nat.
Proof. vm_compute. repeat split. Qed.

(** C6 (amended): [TapAnts2.get_token] never refreshes a cached truthy
    token, however much time has passed; the only expiry-driven refresh is
    create_csv's start-up, which sends exactly one credential exchange when
    the stored token or expiry is missing or [token_expires_at] is not after
    now, and none otherwise. *)
Theorem token_expiry_refresh :
  (forall server api_url username password st d,
     truthy (tap_token st) = true ->
     (wait d ;;; get_token server api_url username password) st
     = (Ok (tap_token st), mk_st (tap_token st) (clock st + d) (log st))) /\
  (forall server api_url username password cfg st,
     token_expired cfg (clock st) = true ->
     let q := Post (api_url ++ "/token") (form_token_request username password) in
     exists r, csv_startup server api_url username password cfg st
               = (r, mk_st (tap_token st) (clock st) (log st ++ [(q, server (log st) q)]))) /\
  (forall server api_url username password cfg st,
     token_expired cfg (clock st) = false ->
     csv_startup server api_url username password cfg st = (Ok cfg, st)).
Proof.
  split; [|split].
  - intros server api_url username password st d H.
    unfold bind at 1. unfold wait. simpl.
    apply (get_token_cached server api_url username password (mk_st _ _ _)). exact H.
  - intros server api_url username password cfg st H q.
    unfold token_expired in H.
    cbv [csv_startup csv_get_token bind ret lift send raise_for_status json
         update_config_with_token read_clock is_token_valid].
    fold q.
    destruct (cfg_token cfg); destruct (cfg_token_expires_at cfg) as [e|];
      try (replace (clock st <? e) with false by (symmetry; apply Z.ltb_ge; apply Z.leb_le; exact H));
      destruct_matches; eexists; reflexivity.
  - intros server api_url username password cfg st H.
    unfold token_expired in H.
    unfold csv_startup, bind, is_token_valid, read_clock, ret.
    destruct (cfg_token cfg); destruct (cfg_token_expires_at cfg) as [e|]; try discriminate H.
    simpl. replace (clock st <? e) with true
      by (symmetry; apply Z.ltb_lt; apply Z.leb_gt; exact H).
    destruct cfg; reflexivity.
Qed.

Lemma token_expiry_refresh_witness :
  exists r, csv_startup (token_server 200 good_token_body) sample_api "u" "p"
              (mk_config (Some (PStr "old")) (Some 5)) (mk_st PNone 10 [])
            = (r, mk_st PNone 10
                    [(Post (sample_api ++ "/token") (form_token_request "u" "p"),
                      mk_response 200 (Some good_token_body))]).
Proof.
  apply (proj1 (proj2 token_expiry_refresh) (token_server 200 good_token_body) sample_api "u" "p"
           (mk_config (Some (PStr "old")) (Some 5)) (mk_st PNone 10 [])).
  reflexivity.
Defined.

(** ** Record flattener *)

(** C8: nesting depth becomes dotted key-path depth, and the empty dict
    flattens to the empty dict. *)
Theorem flatten_examples :
  flatten (PDict [("a", PDict [("b", PInt 1); ("c", PDict [("d", PInt 2)])])])
  = Ok (PDict [("a.b", PInt 1); ("a.c.d", PInt 2)]) /\
  flatten (PDict []) = Ok (PDict []).
Proof. split; reflexivity. Qed.

(** C9 (counterexample): on the non-mapping root [3], [flatten_dict]
    raises ([d.items()] does not exist) instead of returning [3]. *)
Lemma flatten_non_mapping_raises :
  flatten (PInt 3) = Err AttributeError /\ flatten (PInt 3) <> Ok (PInt 3).
Proof. split; [reflexivity | discriminate]. Qed.

(** ** Requests issued by the orchestration *)

Lemma get_urls_app l1 l2 : get_urls (l1 ++ l2)%list = (get_urls l1 ++ get_urls l2)%list.
Proof.
  induction l1 as [|[q r] l1 IH]; simpl; [reflexivity|].
  destruct q; simpl; rewrite IH; reflexivity.
Qed.

Lemma get_responses_app l1 l2 :
  get_responses (l1 ++ l2)%list = (get_responses l1 ++ get_responses l2)%list.
Proof.
  induction l1 as [|[q r] l1 IH]; simpl; [reflexivity|].
  destruct q; simpl; rewrite IH; reflexivity.
Qed.

Lemma bind_ok_inv {A B} (m : M A) (k : A -> M B) st b st' :
  bind m k st = (Ok b, st') ->
  exists a st1, m st = (Ok a, st1) /\ k a st1 = (Ok b, st').
Proof.
  unfold bind. destruct (m st) as [[a|e] st1]; intros H.
  - exists a, st1. split; [reflexivity | exact H].
  - discriminate H.
Qed.

Lemma lift_ok_inv {A} (r : result A) a st st' :
  lift r st = (Ok a, st') -> r = Ok a /\ st' = st.
Proof. unfold lift. intros H. inversion H. split; reflexivity. Qed.

Lemma ret_inv {A} (a b : A) st st' : ret a st = (Ok b, st') -> a = b /\ st' = st.
Proof. unfold ret. intros H. inversion H. split; reflexivity. Qed.

Lemma raise_for_status_ok_inv r u st st' :
  raise_for_status r st = (Ok u, st') -> st' = st.
Proof.
  unfold raise_for_status, lift, ret.
  destruct ((400 <=? status r) && (status r <? 600)); intros H; inversion H; reflexivity.
Qed.

Lemma json_ok_inv r j st st' : json r st = (Ok j, st') -> body r = Some j /\ st' = st.
Proof.
  unfold json, lift, ret. destruct (body r); intros H; inversion H; split; reflexivity.
Qed.

Section Orchestration.
Variable server : list (request * response) -> request -> response.
Variables api_url username password : string.

Lemma get_token_log st r st' :
  get_token server api_url username password st = (r, st') ->
  exists new, log st' = (log st ++ new)%list /\ get_urls new = [] /\ get_responses new = [].
Proof.
  cbv [get_token bind read_token write_token send raise_for_status json lift ret].
  destruct_matches; intros H; inversion H; subst; simpl;
    first [ exists []; rewrite app_nil_r; repeat split; reflexivity
          | eexists; split; [reflexivity | split; reflexivity] ].
Qed.

Lemma http_headers_ok_inv st h st' :
  http_headers server api_url username password st = (Ok h, st') ->
  exists new, log st' = (log st ++ new)%list /\ get_urls new = [] /\ get_responses new = [].
Proof.
  unfold http_headers. intros H.
  destruct (bind_ok_inv _ _ _ _ _ H) as (t & st1 & H1 & H2).
  apply ret_inv in H2 as [_ ->]. eapply get_token_log; exact H1.
Qed.

(** One GET with its raise and JSON decoding: the request is logged, and
    its response parsed. *)
Lemma get_checked_inv url default st d st' :
  (headers <- http_headers server api_url username password ;;
   response <- send server (Get url headers) ;;
   raise_for_status response ;;;
   j <- json response ;;
   lift (py_get j "data" default)) st = (Ok d, st') ->
  exists new r, log st' = (log st ++ new)%list /\ get_urls new = [url] /\
    get_responses new = [r] /\ data_of r default = Some d.
Proof.
  intros H.
  destruct (bind_ok_inv _ _ _ _ _ H) as (h & st1 & H1 & H2).
  destruct (http_headers_ok_inv _ _ _ H1) as (new1 & Hl1 & Hu1 & Hr1).
  destruct (bind_ok_inv _ _ _ _ _ H2) as (r & st2 & H3 & H4).
  unfold send in H3. inversion H3; subst r st2; clear H3.
  set (r0 := server (log st1) (Get url h)) in *.
  destruct (bind_ok_inv _ _ _ _ _ H4) as (u & st3 & H5 & H6).
  apply raise_for_status_ok_inv in H5. subst st3.
  destruct (bind_ok_inv _ _ _ _ _ H6) as (j & st4 & H7 & H8).
  apply json_ok_inv in H7 as [Hb ->].
  apply lift_ok_inv in H8 as [Hd ->].
  exists (new1 ++ [(Get url h, r0)])%list, r0.
  simpl. rewrite Hl1, app_assoc. split; [reflexivity|].
  rewrite get_urls_app, get_responses_app, Hu1, Hr1. simpl.
  split; [reflexivity | split; [reflexivity|]].
  unfold data_of. rewrite Hb, Hd. reflexivity.
Qed.

Lemma fetch_one_inv url st d st' :
  fetch_one server api_url username password url st = (Ok d, st') ->
  exists new r, log st' = (log st ++ new)%list /\ get_urls new = [url] /\
    get_responses new = [r] /\ data_of r (PDict []) = Some d.
Proof. intros H. apply get_checked_inv. exact H. Qed.

Lemma stream_get_records_inv path st v st' :
  stream_get_records server api_url username password path st = (Ok v, st') ->
  exists new r, log st' = (log st ++ new)%list /\ get_urls new = [(api_url ++ path)%string] /\
    get_responses new = [r] /\ data_of r (PList []) = Some v.
Proof. intros H. apply get_checked_inv. exact H. Qed.

(** A loop that, per element with a truthy id, performs one [fetch_one]. *)
Lemma per_id_loop_inv (url_of : pyval -> string) (loop : list pyval -> M (list pyval)) :
  (forall st recs st', loop [] st = (Ok recs, st') -> recs = [] /\ st' = st) ->
  (forall x xs st recs st',
     loop (x :: xs) st = (Ok recs, st') ->
     exists xid st1 here st2 rest,
       py_get x "id" PNone = Ok xid /\
       (if truthy xid then
          (d <- fetch_one server api_url username password (url_of xid) ;; ret [d])
        else ret []) st1 = (Ok here, st2) /\ st1 = st /\
       loop xs st2 = (Ok rest, st') /\ recs = (here ++ rest)%list) ->
  forall xs st recs st',
    loop xs st = (Ok recs, st') ->
    exists new, log st' = (log st ++ new)%list /\
      get_urls new = map (fun x => url_of (id_of x)) (filter id_truthy xs) /\
      Forall2 (fun r d => data_of r (PDict []) = Some d) (get_responses new) recs.
Proof.
  intros Hnil Hcons xs. induction xs as [|x xs IH]; intros st recs st' H.
  - destruct (Hnil _ _ _ H) as [-> ->]. exists []. rewrite app_nil_r.
    split; [reflexivity | split; [reflexivity | constructor]].
  - destruct (Hcons _ _ _ _ _ H) as (xid & st1 & here & st2 & rest & Hid & H3 & -> & H5 & ->).
    destruct (IH _ _ _ H5) as (new2 & Hl2 & Hu2 & Hf2).
    assert (Hido : id_of x = xid) by (unfold id_of; rewrite Hid; reflexivity).
    assert (Hf : id_truthy x = truthy xid) by (unfold id_truthy; rewrite Hido; reflexivity).
    cbn [filter]. rewrite Hf.
    destruct (truthy xid) eqn:Ht.
    + destruct (bind_ok_inv _ _ _ _ _ H3) as (d & st4 & H7 & H8).
      apply ret_inv in H8 as [<- ->].
      destruct (fetch_one_inv _ _ _ _ H7) as (new1 & r & Hl1 & Hu1 & Hr1 & Hd).
      exists (new1 ++ new2)%list. rewrite Hl2, Hl1, app_assoc. split; [reflexivity|].
      rewrite get_urls_app, get_responses_app, Hu1, Hr1, Hu2. cbn [map app].
      rewrite Hido. split; [reflexivity|]. constructor; assumption.
    + apply ret_inv in H3 as [<- ->]. exists new2. auto.
Qed.

Lemma order_details_loop_inv :
  forall orders st recs st',
    order_details_loop server api_url username password orders st = (Ok recs, st') ->
    exists new, log st' = (log st ++ new)%list /\
      get_urls new = map (fun o => order_url api_url (id_of o)) (filter id_truthy orders) /\
      Forall2 (fun r d => data_of r (PDict []) = Some d) (get_responses new) recs.
Proof.
  apply (per_id_loop_inv (order_url api_url)).
  - intros st recs st' H. apply ret_inv in H as [<- ->]. split; reflexivity.
  - intros x xs st recs st' H. simpl in H.
    destruct (bind_ok_inv _ _ _ _ _ H) as (xid & st1 & H1 & H2).
    apply lift_ok_inv in H1 as [Hid ->].
    destruct (bind_ok_inv _ _ _ _ _ H2) as (here & st2 & H3 & H4).
    destruct (bind_ok_inv _ _ _ _ _ H4) as (rest & st3 & H5 & H6).
    apply ret_inv in H6 as [<- ->].
    exists xid, st, here, st2, rest. auto.
Qed.

Lemma order_items_inner_inv :
  forall items st recs st',
    order_items_inner server api_url username password items st = (Ok recs, st') ->
    exists new, log st' = (log st ++ new)%list /\
      get_urls new = map (fun i => orderitem_url api_url (id_of i)) (filter id_truthy items) /\
      Forall2 (fun r d => data_of r (PDict []) = Some d) (get_responses new) recs.
Proof.
  apply (per_id_loop_inv (orderitem_url api_url)).
  - intros st recs st' H. apply ret_inv in H as [<- ->]. split; reflexivity.
  - intros x xs st recs st' H. simpl in H.
    destruct (bind_ok_inv _ _ _ _ _ H) as (xid & st1 & H1 & H2).
    apply lift_ok_inv in H1 as [Hid ->].
    destruct (bind_ok_inv _ _ _ _ _ H2) as (here & st2 & H3 & H4).
    destruct (bind_ok_inv _ _ _ _ _ H4) as (rest & st3 & H5 & H6).
    apply ret_inv in H6 as [<- ->].
    exists xid, st, here, st2, rest. auto.
Qed.

Lemma Forall2_app_both {A B} (P : A -> B -> Prop) l1 l2 k1 k2 :
  Forall2 P l1 k1 -> Forall2 P l2 k2 -> Forall2 P (l1 ++ l2) (k1 ++ k2).
Proof. intros H1 H2. induction H1; simpl; auto. Qed.

Lemma order_items_loop_inv :
  forall details st recs st',
    order_items_loop server api_url username password details st = (Ok recs, st') ->
    exists new, log st' = (log st ++ new)%list /\
      get_urls new
      = concat (map (fun d => map (fun i => orderitem_url api_url (id_of i))
                                  (filter id_truthy (refs_of d))) details) /\
      Forall2 (fun r d => data_of r (PDict []) = Some d) (get_responses new) recs.
Proof.
  induction details as [|d ds IH]; intros st recs st' H; simpl in H.
  - apply ret_inv in H as [<- ->]. exists []. rewrite app_nil_r.
    split; [reflexivity | split; [reflexivity | constructor]].
  - destruct (bind_ok_inv _ _ _ _ _ H) as (refs & st1 & H1 & H2).
    apply lift_ok_inv in H1 as [Hrefs ->].
    destruct (bind_ok_inv _ _ _ _ _ H2) as (items & st2 & H3 & H4).
    apply lift_ok_inv in H3 as [Hitems ->].
    destruct (bind_ok_inv _ _ _ _ _ H4) as (here & st3 & H5 & H6).
    destruct (bind_ok_inv _ _ _ _ _ H6) as (rest & st4 & H7 & H8).
    apply ret_inv in H8 as [<- ->].
    destruct (order_items_inner_inv _ _ _ _ H5) as (new1 & Hl1 & Hu1 & Hf1).
    destruct (IH _ _ _ H7) as (new2 & Hl2 & Hu2 & Hf2).
    exists (new1 ++ new2)%list. rewrite Hl2, Hl1, app_assoc. split; [reflexivity|].
    rewrite get_urls_app, get_responses_app, Hu1, Hu2. cbn [map concat].
    assert (Hr : refs_of d = items) by (unfold refs_of; rewrite Hrefs, Hitems; reflexivity).
    rewrite Hr.
    split; [reflexivity|]. apply Forall2_app_both; assumption.
Qed.

End Orchestration.

(** ** Dependent fetch orchestration *)

(** C2 (counterexample): the order [{"id": 0}] has an id, yet no
    [/v3/orders/0] request is sent and no record is produced. *)
Lemma order_details_zero_id_skipped :
  let r := run (order_details_get_records
                  (shop_server (PList [PDict [("id", PInt 0)]]) all_ok plain_entity)
                  sample_api "u" "p") st0 in
  py_get (PDict [("id", PInt 0)]) "id" PNone = Ok (PInt 0) /\
  fst r = Ok [] /\ get_urls (log (snd r)) = [(sample_api ++ orders_path)%string].
Proof. vm_compute. repeat split. Qed.

(** C2 (amended): a successful [order_details] run first completes the
    [orders] fetch (one GET), then sends one GET to [/v3/orders/{id}] per
    order whose id is truthy, in the orders' order, and returns the
    unwrapped [data] of those responses in the same order. *)
Theorem order_details_fetches server api_url username password st recs st' :
  order_details_get_records server api_url username password st = (Ok recs, st') ->
  exists ov orders st1 new1 new2,
    stream_get_records server api_url username password orders_path st = (Ok ov, st1) /\
    py_iter ov = Ok orders /\
    log st1 = (log st ++ new1)%list /\ get_urls new1 = [(api_url ++ orders_path)%string] /\
    log st' = (log st1 ++ new2)%list /\
    get_urls new2 = map (fun o => order_url api_url (id_of o)) (filter id_truthy orders) /\
    Forall2 (fun r d => data_of r (PDict []) = Some d) (get_responses new2) recs.
Proof.
  intros H. unfold order_details_get_records in H.
  destruct (bind_ok_inv _ _ _ _ _ H) as (ov & st1 & H1 & H2).
  destruct (bind_ok_inv _ _ _ _ _ H2) as (orders & st2 & H3 & H4).
  apply lift_ok_inv in H3 as [Hit ->].
  destruct (stream_get_records_inv _ _ _ _ _ _ _ _ H1) as (new1 & r0 & Hl1 & Hu1 & _ & _).
  destruct (order_details_loop_inv _ _ _ _ _ _ _ _ H4) as (new2 & Hl2 & Hu2 & Hf2).
  exists ov, orders, st1, new1, new2. repeat split; assumption.
Qed.

Lemma order_details_fetches_witness :
  get_urls (log (snd (run (order_details_get_records (shop_server sample_orders all_ok plain_entity)
                             sample_api "u" "p") st0)))
  = [(sample_api ++ "/v3/orders")%string; (sample_api ++ "/v3/orders/1")%string;
     (sample_api ++ "/v3/orders/3")%string] /\
  exists ov orders st1 new1 new2,
    stream_get_records (shop_server sample_orders all_ok plain_entity) sample_api "u" "p"
      orders_path st0 = (Ok ov, st1) /\
    py_iter ov = Ok orders /\
    log st1 = (log st0 ++ new1)%list /\ get_urls new1 = [(sample_api ++ orders_path)%string] /\
    log (snd (run (order_details_get_records (shop_server sample_orders all_ok plain_entity)
                     sample_api "u" "p") st0)) = (log st1 ++ new2)%list /\
    get_urls new2 = map (fun o => order_url sample_api (id_of o)) (filter id_truthy orders) /\
    Forall2 (fun r d => data_of r (PDict []) = Some d) (get_responses new2)
      [plain_entity (sample_api ++ "/v3/orders/1"); plain_entity (sample_api ++ "/v3/orders/3")].
Proof.
  split; [vm_compute; reflexivity|].
  apply (order_details_fetches (shop_server sample_orders all_ok plain_entity) sample_api "u" "p"
           st0).
  vm_compute. reflexivity.
Defined.

(** C3 (counterexample): the item reference [{"id": 0}] has an id, yet no
    [/v3/orderitems/0] request is sent. *)
Lemma order_items_zero_id_skipped :
  let r := run (order_items_get_records
                  (shop_server (PList [PDict [("id", PInt 1)]]) all_ok detail_with_items)
                  sample_api "u" "p") st0 in
  fst r = Ok [detail_with_items (sample_api ++ "/v3/orderitems/11")] /\
  get_urls (log (snd r))
  = [(sample_api ++ orders_path)%string; (sample_api ++ "/v3/orders/1")%string;
     (sample_api ++ "/v3/orderitems/11")%string].
Proof. vm_compute. split; reflexivity. Qed.

(** C3 (amended): a successful [order_items] run first completes the
    [order_details] run, then sends one GET to [/v3/orderitems/{id}] per
    item reference (read at [relationships.orderItems.data]) whose id is
    truthy, details in their fetched order and references in array order,
    and returns the unwrapped [data] of those responses in that order. *)
Theorem order_items_fetches server api_url username password st recs st' :
  order_items_get_records server api_url username password st = (Ok recs, st') ->
  exists details st1 new,
    order_details_get_records server api_url username password st = (Ok details, st1) /\
    log st' = (log st1 ++ new)%list /\
    get_urls new
    = concat (map (fun d => map (fun i => orderitem_url api_url (id_of i))
                                (filter id_truthy (refs_of d))) details) /\
    Forall2 (fun r d => data_of r (PDict []) = Some d) (get_responses new) recs.
Proof.
  intros H. unfold order_items_get_records in H.
  destruct (bind_ok_inv _ _ _ _ _ H) as (details & st1 & H1 & H2).
  destruct (order_items_loop_inv _ _ _ _ _ _ _ _ H2) as (new & Hl & Hu & Hf).
  exists details, st1, new. repeat split; assumption.
Qed.

Lemma order_items_fetches_witness :
  exists details st1 new,
    order_details_get_records (shop_server sample_orders all_ok detail_with_items)
      sample_api "u" "p" st0 = (Ok details, st1) /\
    log (snd (run (order_items_get_records (shop_server sample_orders all_ok detail_with_items)
                     sample_api "u" "p") st0)) = (log st1 ++ new)%list /\
    get_urls new
    = concat (map (fun d => map (fun i => orderitem_url sample_api (id_of i))
                                (filter id_truthy (refs_of d))) details) /\
    Forall2 (fun r d => data_of r (PDict []) = Some d) (get_responses new)
      [detail_with_items (sample_api ++ "/v3/orderitems/11");
       detail_with_items (sample_api ++ "/v3/orderitems/11")].
Proof.
  apply (order_items_fetches (shop_server sample_orders all_ok detail_with_items)
           sample_api "u" "p" st0).
  vm_compute. reflexivity.
Defined.

Lemma bind_ext {A B} (m1 m2 : M A) (k1 k2 : A -> M B) :
  (forall st, m1 st = m2 st) -> (forall a st, k1 a st = k2 a st) ->
  forall st, bind m1 k1 st = bind m2 k2 st.
Proof.
  intros Hm Hk st. unfold bind. rewrite Hm.
  destruct (m2 st) as [[a|e] s]; [apply Hk | reflexivity].
Qed.

Lemma bind_lift_ok {A B} (a : A) (k : A -> M B) st : bind (lift (Ok a)) k st = k a st.
Proof. reflexivity. Qed.

Lemma bind_lift_err {A B} e (k : A -> M B) st : bind (lift (Err e)) k st = (Err e, st).
Proof. reflexivity. Qed.

Lemma bind_ret_l {A B} (a : A) (k : A -> M B) st : bind (ret a) k st = k a st.
Proof. reflexivity. Qed.

Lemma bind_ret_r {A} (m : M A) st : bind m ret st = m st.
Proof. unfold bind, ret. destruct (m st) as [[a|e] s]; reflexivity. Qed.

(** One step of the skip-falsy-ids induction over a per-id loop. *)
Ltac skip_falsy_step o IH :=
  cbn [filter]; unfold keep_record at 1;
  destruct (py_get o "id" PNone) as [v|e] eqn:Hid;
  [ destruct (truthy v) eqn:Ht;
    [ cbn [order_details_loop order_items_inner];
      apply bind_ext; [reflexivity | intros ? ?];
      apply bind_ext; [reflexivity | intros ? ?];
      apply bind_ext; [apply IH | reflexivity]
    | cbn [order_details_loop order_items_inner];
      rewrite Hid, bind_lift_ok; cbv beta; rewrite Ht, bind_ret_l; cbv beta;
      etransitivity; [ | apply bind_ret_r ];
      apply bind_ext; [apply IH | reflexivity] ]
  | cbn [order_details_loop order_items_inner];
    rewrite Hid, !bind_lift_err; reflexivity ].

(** C10: the derived fetches test ids by truthiness: dropping every record
    whose id is read and falsy ([None] or missing, [0], [""], [False], empty
    list or dict) changes neither the requests sent nor the output. *)
Theorem falsy_ids_skipped :
  (forall server api_url username password orders st,
     order_details_loop server api_url username password orders st
     = order_details_loop server api_url username password (filter keep_record orders) st) /\
  (forall server api_url username password items st,
     order_items_inner server api_url username password items st
     = order_items_inner server api_url username password (filter keep_record items) st).
Proof.
  split.
  - intros server api_url username password orders.
    induction orders as [|o os IH]; intros st; [reflexivity|].
    skip_falsy_step o IH.
  - intros server api_url username password items.
    induction items as [|o os IH]; intros st; [reflexivity|].
    skip_falsy_step o IH.
Qed.


(** ** HTTP failures *)

Lemma stops_pure {A} (m : M A) :
  (forall st r st', m st = (r, st') -> st' = st) -> stops_at_failure m.
Proof.
  intros Hp st r st' H. apply Hp in H. subst st'.
  exists []. rewrite app_nil_r. split; [reflexivity | intros e He; destruct He].
Qed.

Lemma stops_ret {A} (a : A) : stops_at_failure (ret a).
Proof. apply stops_pure. unfold ret. intros st r st' H. inversion H. reflexivity. Qed.

Lemma stops_lift {A} (x : result A) : stops_at_failure (lift x).
Proof. apply stops_pure. unfold lift. intros st r st' H. inversion H. reflexivity. Qed.

Lemma stops_json r : stops_at_failure (json r).
Proof. unfold json. destruct (body r); [apply stops_ret | apply stops_lift]. Qed.

Lemma stops_read_token : stops_at_failure read_token.
Proof. apply stops_pure. unfold read_token. intros st r st' H. inversion H. reflexivity. Qed.

Lemma stops_write_token t : stops_at_failure (write_token t).
Proof.
  intros st r st' H. unfold write_token in H. inversion H; subst. simpl.
  exists []. rewrite app_nil_r. split; [reflexivity | intros e He; destruct He].
Qed.

Lemma stops_bind {A B} (m : M A) (k : A -> M B) :
  stops_at_failure m -> (forall a, stops_at_failure (k a)) -> stops_at_failure (bind m k).
Proof.
  intros Hm Hk st r st' H. unfold bind in H.
  destruct (m st) as [[a|x] st1] eqn:E.
  - destruct (Hm _ _ _ E) as (new1 & Hl1 & Hr1).
    destruct (Hk a _ _ _ H) as (new2 & Hl2 & Hr2).
    exists (new1 ++ new2)%list. rewrite Hl2, Hl1, app_assoc. split; [reflexivity|].
    intros e He Hf. apply in_app_or in He as [He|He].
    + destruct (Hr1 e He Hf) as (pre & _ & Hd). discriminate Hd.
    + destruct (Hr2 e He Hf) as (pre & -> & Hd).
      exists (new1 ++ pre)%list. rewrite app_assoc. split; [reflexivity | exact Hd].
  - inversion H; subst. destruct (Hm _ _ _ E) as (new1 & Hl1 & Hr1).
    exists new1. split; [exact Hl1|].
    intros e He Hf. destruct (Hr1 e He Hf) as (pre & Hp & Hd).
    exists pre. split; [exact Hp|]. inversion Hd. reflexivity.
Qed.

(** [requests.get/post] immediately followed by [raise_for_status()]. *)
Lemma stops_send_checked {A} server q (k : response -> M A) :
  (forall r, stops_at_failure (k r)) ->
  stops_at_failure (response <- send server q ;; raise_for_status response ;;; k response).
Proof.
  intros Hk st r st' H. unfold bind, send, raise_for_status in H.
  set (resp := server (log st) q) in *.
  set (st1 := mk_st (tap_token st) (clock st) (log st ++ [(q, resp)])) in *.
  destruct ((400 <=? status resp) && (status resp <? 600)) eqn:Hs.
  - unfold lift in H. inversion H; subst. exists [(q, resp)]. split; [reflexivity|].
    intros e [He|[]] _. subst e. exists []. split; reflexivity.
  - unfold ret in H. destruct (Hk resp _ _ _ H) as (new2 & Hl2 & Hr2).
    exists ((q, resp) :: new2). rewrite Hl2. simpl. rewrite <- app_assoc. split; [reflexivity|].
    intros e [He|He] Hf.
    + subst e. unfold raises in Hf. simpl in Hf. rewrite Hs in Hf. discriminate Hf.
    + destruct (Hr2 e He Hf) as (pre & -> & Hd). exists ((q, resp) :: pre). split; [reflexivity | exact Hd].
Qed.

Ltac stops_tac :=
  repeat first
    [ apply stops_send_checked; intros
    | apply stops_ret | apply stops_lift | apply stops_json
    | apply stops_read_token | apply stops_write_token
    | match goal with |- stops_at_failure (if ?b then _ else _) => destruct b end
    | apply stops_bind; [ | intros ] ].

Section Failures.
Variable server : list (request * response) -> request -> response.
Variables api_url username password : string.

Lemma stops_get_token : stops_at_failure (get_token server api_url username password).
Proof. unfold get_token. stops_tac. Qed.

Lemma stops_fetch_one url : stops_at_failure (fetch_one server api_url username password url).
Proof. unfold fetch_one, http_headers. stops_tac; apply stops_get_token. Qed.

Lemma stops_stream_get_records path :
  stops_at_failure (stream_get_records server api_url username password path).
Proof. unfold stream_get_records, http_headers. cbv zeta. stops_tac; apply stops_get_token. Qed.

Lemma stops_order_details_loop orders :
  stops_at_failure (order_details_loop server api_url username password orders).
Proof.
  induction orders as [|o os IH]; simpl; stops_tac; try apply stops_fetch_one; exact IH.
Qed.

Lemma stops_order_items_inner items :
  stops_at_failure (order_items_inner server api_url username password items).
Proof.
  induction items as [|i is IH]; simpl; stops_tac; try apply stops_fetch_one; exact IH.
Qed.

Lemma stops_order_items_loop details :
  stops_at_failure (order_items_loop server api_url username password details).
Proof.
  induction details as [|d ds IH]; simpl; stops_tac;
    first [apply stops_order_items_inner | exact IH].
Qed.

End Failures.

(** C4 (counterexample): [raise_for_status] raises only on 4xx and 5xx; a
    dependent fetch answered [300] with a JSON body is kept as a record. *)
Lemma order_details_3xx_not_raised :
  fst (run (order_details_get_records
              (shop_server sample_orders (status_on (sample_api ++ "/v3/orders/3") 300) plain_entity)
              sample_api "u" "p") st0)
  = Ok [plain_entity (sample_api ++ "/v3/orders/1"); plain_entity (sample_api ++ "/v3/orders/3")].
Proof. vm_compute. reflexivity. Qed.

(** C4 (amended): in [products]/[orders], [order_details] and
    [order_items], the first response with a 4xx or 5xx status ends the run:
    it is the last request sent (no retry, nothing after it) and the run
    raises [HTTPError] with that status, so [get_records] returns no records,
    whatever earlier fetches returned. *)
Theorem http_failure_aborts server api_url username password :
  (forall path, stops_at_failure (stream_get_records server api_url username password path)) /\
  stops_at_failure (order_details_get_records server api_url username password) /\
  stops_at_failure (order_items_get_records server api_url username password).
Proof.
  split; [|split].
  - apply stops_stream_get_records.
  - unfold order_details_get_records. apply stops_bind; [apply stops_stream_get_records|].
    intros ov. apply stops_bind; [apply stops_lift|]. intros os. apply stops_order_details_loop.
  - unfold order_items_get_records, order_details_get_records.
    apply stops_bind; [|intros; apply stops_order_items_loop].
    apply stops_bind; [apply stops_stream_get_records|].
    intros ov. apply stops_bind; [apply stops_lift|]. intros os. apply stops_order_details_loop.
Qed.

Lemma http_failure_aborts_witness :
  let m := order_details_get_records
             (shop_server sample_orders (status_on (sample_api ++ "/v3/orders/3") 404) plain_entity)
             sample_api "u" "p" in
  fst (run m st0) = Err (HTTPError 404) /\
  exists new, log (snd (run m st0)) = (log st0 ++ new)%list /\
    forall e, In e new -> raises e = true ->
    exists pre, new = (pre ++ [e])%list /\ fst (run m st0) = Err (HTTPError (status (snd e))).
Proof.
  intros m. split; [vm_compute; reflexivity|].
  apply (proj1 (proj2 (http_failure_aborts
                         (shop_server sample_orders (status_on (sample_api ++ "/v3/orders/3") 404)
                            plain_entity) sample_api "u" "p"))
           st0 (fst (run m st0)) (snd (run m st0))).
  vm_compute. reflexivity.
Defined.

(** ** Unwrapping [data] *)

(** C7 (code bug): [.get('data', [])] only covers a missing [data] field;
    on [{"data": null}] the orders stream returns [None], and
    [OrderDetailsStream.get_records] then fails in [list(None)].  A missing
    field does give [[]] (list endpoints) and [{}] (single entities). *)
Theorem data_null_not_defaulted :
  fst (run (stream_get_records (shop_server PNone all_ok plain_entity) sample_api "u" "p"
              orders_path) st0) = Ok PNone /\
  fst (run (order_details_get_records (shop_server PNone all_ok plain_entity) sample_api "u" "p")
         st0) = Err TypeError /\
  fst (run (stream_get_records bare_server sample_api "u" "p" orders_path) st0) = Ok (PList []) /\
  fst (run (fetch_one bare_server sample_api "u" "p" (sample_api ++ "/v3/orders/1")) st0)
  = Ok (PDict []).
Proof. vm_compute. repeat split. Qed.

(** * Further properties of the code *)

(** ** create_csv.flatten_dict *)

Lemma flatten_items_dict l p sep :
  flatten_items (PDict l) p sep = dict_of_items (flat_loop p sep l).
Proof.
  simpl. f_equal. induction l as [|[k v] r IH]; simpl; [reflexivity|].
  rewrite IH. reflexivity.
Qed.

Lemma flat_loop_app p sep l1 l2 :
  flat_loop p sep (l1 ++ l2) = (flat_loop p sep l1 ++ flat_loop p sep l2)%list.
Proof.
  induction l1 as [|[k v] r IH]; simpl; [reflexivity|].
  rewrite IH, app_assoc. reflexivity.
Qed.

Lemma map_fst_dict_set k v d :
  map fst (dict_set k v d) = if existsb (String.eqb k) (map fst d) then map fst d
                             else (map fst d ++ [k])%list.
Proof.
  induction d as [|[k' v'] r IH]; simpl; [reflexivity|].
  destruct (String.eqb k k') eqn:E; simpl.
  - apply String.eqb_eq in E. subst. reflexivity.
  - rewrite IH. destruct (existsb (String.eqb k) (map fst r)); reflexivity.
Qed.

Lemma NoDup_app_single {A} (l : list A) x : NoDup l -> ~ In x l -> NoDup (l ++ [x]).
Proof.
  intros Hn Hi. apply NoDup_app; [exact Hn | constructor; [intros [] | constructor] |].
  intros y Hy [Hx|[]]. subst. contradiction.
Qed.

Lemma dict_set_nodup k v d : NoDup (map fst d) -> NoDup (map fst (dict_set k v d)).
Proof.
  intros H. rewrite map_fst_dict_set.
  destruct (existsb (String.eqb k) (map fst d)) eqn:E; [exact H|].
  apply NoDup_app_single; [exact H|]. intros Hi.
  assert (existsb (String.eqb k) (map fst d) = true)
    by (apply existsb_exists; exists k; split; [exact Hi | apply String.eqb_refl]).
  congruence.
Qed.

Lemma dict_of_items_from_nodup acc items :
  NoDup (map fst acc) -> NoDup (map fst (dict_of_items_from acc items)).
Proof.
  revert acc. induction items as [|[k v] r IH]; intros acc H; simpl; [exact H|].
  apply IH, dict_set_nodup, H.
Qed.

Lemma dict_set_forall (P : string * pyval -> Prop) k v d :
  (forall k', P (k', v)) -> Forall P d -> Forall P (dict_set k v d).
Proof.
  intros Hv Hd. induction Hd as [|[k' v'] r Hx Hr IH]; simpl.
  - constructor; [apply Hv | constructor].
  - destruct (String.eqb k k'); constructor; auto.
Qed.

Lemma dict_of_items_from_forall (P : string * pyval -> Prop) acc items :
  (forall k v, P (k, v) -> forall k', P (k', v)) ->
  Forall P acc -> Forall P items -> Forall P (dict_of_items_from acc items).
Proof.
  intros HP. revert acc. induction items as [|[k v] r IH]; intros acc Ha Hi; simpl; [exact Ha|].
  inversion Hi; subst. apply IH; [|assumption].
  apply dict_set_forall; [|exact Ha]. intros k'. eapply HP; eassumption.
Qed.

Lemma flatten_items_leaves : forall (d : pyval) (p sep : string),
  Forall leaf_pair (flatten_items d p sep).
Proof.
  fix flatten_items_leaves 1. intros d p sep.
  destruct d as [| | | | |l]; simpl; try constructor.
  apply dict_of_items_from_forall; [intros k v H k'; exact H | constructor |].
  revert l. fix loop_leaves 1. intros [|[k v] r]; [constructor|].
  pose proof (flatten_items_leaves v (new_key p sep k) sep) as Hv.
  simpl. apply Forall_app. split; [|apply loop_leaves].
  destruct v; try (constructor; [reflexivity | constructor]). exact Hv.
Qed.

Lemma dict_set_new k v d : ~ In k (map fst d) -> dict_set k v d = (d ++ [(k, v)])%list.
Proof.
  induction d as [|[k' v'] r IH]; intros H; simpl; [reflexivity|].
  destruct (String.eqb k k') eqn:E.
  - apply String.eqb_eq in E. subst. exfalso. apply H. left. reflexivity.
  - rewrite IH; [reflexivity|]. intros Hi. apply H. right. exact Hi.
Qed.

Lemma dict_of_items_from_distinct acc items :
  NoDup (map fst (acc ++ items)) -> dict_of_items_from acc items = (acc ++ items)%list.
Proof.
  revert acc. induction items as [|[k v] r IH]; intros acc H; simpl.
  - rewrite app_nil_r. reflexivity.
  - rewrite map_app in H. simpl in H. pose proof H as H0.
    apply NoDup_remove in H as [H1 H2].
    rewrite dict_set_new by (intros Hi; apply H2, in_or_app; left; exact Hi).
    rewrite IH.
    + rewrite <- app_assoc. reflexivity.
    + rewrite !map_app. simpl. rewrite <- app_assoc. exact H0.
Qed.

Lemma flat_loop_leaves kvs :
  Forall leaf_pair kvs -> flat_loop "" "." kvs = kvs.
Proof.
  induction kvs as [|[k v] r IH]; intros H; simpl; [reflexivity|].
  inversion H as [|x y Hx Hr]; subst. unfold leaf_pair in Hx. simpl in Hx.
  rewrite IH by exact Hr.
  destruct v; try discriminate Hx; reflexivity.
Qed.

(** A flattened record has distinct keys and no dict among its values. *)
Theorem flatten_output_flat kvs :
  exists f, flatten (PDict kvs) = Ok (PDict f) /\
    NoDup (map fst f) /\ Forall (fun kv => is_dict (snd kv) = false) f.
Proof.
  exists (flatten_items (PDict kvs) "" "."). split; [reflexivity|]. split.
  - rewrite flatten_items_dict. apply dict_of_items_from_nodup. constructor.
  - apply flatten_items_leaves.
Qed.

(** C9 (amended): [flatten] returns a flat dict (distinct keys, no dict
    among the values) for every dict root, and raises [AttributeError] for
    every non-mapping root. *)
Theorem flatten_total_on_mappings v :
  match v with
  | PDict _ => exists out, flatten v = Ok (PDict out) /\
                 NoDup (map fst out) /\ Forall (fun kv => is_dict (snd kv) = false) out
  | _ => flatten v = Err AttributeError
  end.
Proof.
  destruct v as [| | | | |l]; try reflexivity.
  exists (flatten_items (PDict l) "" "."). split; [reflexivity|]. split.
  - rewrite flatten_items_dict. apply dict_of_items_from_nodup. constructor.
  - apply flatten_items_leaves.
Qed.

(** A record that is already flat (distinct keys, no dict values) is
    returned unchanged by [flatten_dict]. *)
Theorem flatten_flat_identity kvs :
  NoDup (map fst kvs) -> Forall (fun kv => is_dict (snd kv) = false) kvs ->
  flatten (PDict kvs) = Ok (PDict kvs).
Proof.
  intros Hn Hl. unfold flatten, flatten_dict.
  rewrite flatten_items_dict, flat_loop_leaves by exact Hl.
  unfold dict_of_items. rewrite dict_of_items_from_distinct by exact Hn. reflexivity.
Qed.

Lemma flatten_flat_identity_witness :
  flatten (PDict [("id", PInt 1); ("attributes.sku", PStr "x")])
  = Ok (PDict [("id", PInt 1); ("attributes.sku", PStr "x")]).
Proof.
  apply flatten_flat_identity.
  - repeat constructor; simpl; intuition discriminate.
  - repeat constructor.
Defined.

(** Flattening twice is flattening once. *)
Theorem flatten_idempotent d f :
  flatten d = Ok f -> flatten f = Ok f.
Proof.
  intros H. destruct d as [| | | | |kvs]; try discriminate H.
  destruct (flatten_output_flat kvs) as (g & Hg & Hn & Hl).
  rewrite Hg in H. inversion H; subst. apply flatten_flat_identity; assumption.
Qed.

Lemma flatten_idempotent_witness :
  flatten (PDict [("a.b", PInt 1); ("a.c.d", PInt 2)])
  = Ok (PDict [("a.b", PInt 1); ("a.c.d", PInt 2)]).
Proof.
  apply (flatten_idempotent (PDict [("a", PDict [("b", PInt 1); ("c", PDict [("d", PInt 2)])])])).
  reflexivity.
Defined.

(** A key whose value is an empty dict leaves no trace in the flattened
    record. *)
Theorem flatten_drops_empty_dicts l1 k l2 :
  flatten (PDict (l1 ++ (k, PDict []) :: l2)) = flatten (PDict (l1 ++ l2)).
Proof.
  unfold flatten, flatten_dict. rewrite !flatten_items_dict, !flat_loop_app.
  reflexivity.
Qed.

(** ** TapAnts2.transform_record *)

Lemma assoc_lookup_dict_set f k v d :
  assoc_lookup f (dict_set k v d) = if String.eqb f k then Some v else assoc_lookup f d.
Proof.
  induction d as [|[k' v'] r IH]; simpl; [reflexivity|].
  destruct (String.eqb_spec k k') as [->|Hne]; simpl.
  - destruct (String.eqb f k'); reflexivity.
  - rewrite IH. destruct (String.eqb_spec f k) as [->|]; [|reflexivity].
    destruct (String.eqb_spec k k'); [contradiction|reflexivity].
Qed.

Lemma walk_keys_none ks : walk_keys PNone ks = Ok PNone.
Proof. induction ks; simpl; [reflexivity|exact IHks]. Qed.

Lemma walk_keys_path_get v ks w : path_get v ks = Some w -> walk_keys v ks = Ok w.
Proof.
  revert v. induction ks as [|k r IH]; intros v H; simpl in *.
  - congruence.
  - destruct v as [| | | | |kvs]; try discriminate H.
    destruct (assoc_lookup k kvs) eqn:E; [|discriminate H].
    destruct kvs; [discriminate E|]. cbn -[assoc_lookup]. rewrite E. apply IH, H.
Qed.

Lemma walk_keys_path_blocked v ks : path_blocked v ks = true -> walk_keys v ks = Ok PNone.
Proof.
  revert v. induction ks as [|k r IH]; intros v H; simpl in *; [discriminate H|].
  destruct (truthy v); [|apply walk_keys_none].
  destruct v as [| | | | |kvs]; try discriminate H. simpl.
  destruct (assoc_lookup k kvs); [apply IH, H|apply walk_keys_none].
Qed.

Lemma walk_keys_err v ks e :
  walk_keys v ks = Err e -> e = AttributeError /\ path_hits_scalar v ks = true.
Proof.
  revert v. induction ks as [|k r IH]; intros v H; simpl in *; [discriminate H|].
  destruct (truthy v).
  - destruct v as [| | | | |kvs]; simpl in H |- *;
      try (inversion H; split; reflexivity).
    destruct (assoc_lookup k kvs); [apply IH, H|].
    rewrite walk_keys_none in H. discriminate H.
  - rewrite walk_keys_none in H. discriminate H.
Qed.

Lemma walk_keys_hits_scalar v ks :
  path_hits_scalar v ks = true -> walk_keys v ks = Err AttributeError.
Proof.
  revert v. induction ks as [|k r IH]; intros v H; simpl in *; [discriminate H|].
  destruct (truthy v); [|discriminate H].
  destruct v as [| | | | |kvs]; simpl in H |- *; try reflexivity.
  destruct (assoc_lookup k kvs); [apply IH, H|discriminate H].
Qed.

Lemma transform_fields_lookup record schema acc d :
  transform_fields record schema acc = Ok d ->
  forall f, (In f schema -> exists v, walk_keys record (py_split "."%char f) = Ok v /\
                                  assoc_lookup f d = Some v) /\
       (~ In f schema -> assoc_lookup f d = assoc_lookup f acc).
Proof.
  revert acc. induction schema as [|g r IH]; intros acc H f; simpl in H.
  - inversion H; subst. split; [intros []|reflexivity].
  - destruct (walk_keys record (py_split "."%char g)) as [vg|e] eqn:Eg; [|discriminate H].
    destruct (IH _ H f) as [Hin Hout]. split.
    + intros Hf. destruct (in_dec string_dec f r) as [Hr|Hr]; [apply Hin, Hr|].
      destruct Hf as [<-|Hf]; [|contradiction].
      exists vg. split; [exact Eg|]. rewrite Hout by exact Hr.
      rewrite assoc_lookup_dict_set, String.eqb_refl. reflexivity.
    + intros Hf. rewrite Hout by (intros Hr; apply Hf; right; exact Hr).
      rewrite assoc_lookup_dict_set.
      destruct (String.eqb_spec f g) as [->|]; [exfalso; apply Hf; left; reflexivity|reflexivity].
Qed.

Lemma transform_fields_keys record schema acc d :
  NoDup schema -> (forall f, In f schema -> ~ In f (map fst acc)) ->
  transform_fields record schema acc = Ok d -> map fst d = (map fst acc ++ schema)%list.
Proof.
  revert acc. induction schema as [|g r IH]; intros acc Hn Hd H; simpl in H.
  - inversion H; subst. rewrite app_nil_r. reflexivity.
  - destruct (walk_keys record (py_split "."%char g)) as [vg|e]; [|discriminate H].
    inversion Hn as [|x y Hg Hr]; subst.
    assert (Hs : dict_set g vg acc = (acc ++ [(g, vg)])%list)
      by (apply dict_set_new, Hd; left; reflexivity).
    rewrite Hs in H. rewrite (IH (acc ++ [(g, vg)])%list Hr); [|intros f Hf|exact H].
    2:{ rewrite map_app, in_app_iff; simpl. intros [Hi|[<-|[]]];
        [apply (Hd f); [right; exact Hf|exact Hi]|contradiction]. }
    rewrite map_app, <- app_assoc. reflexivity.
Qed.

Lemma transform_fields_err record schema acc e :
  transform_fields record schema acc = Err e ->
  e = AttributeError /\ exists f, In f schema /\ path_hits_scalar record (py_split "."%char f) = true.
Proof.
  revert acc. induction schema as [|g r IH]; intros acc H; simpl in H; [discriminate H|].
  destruct (walk_keys record (py_split "."%char g)) as [vg|e'] eqn:Eg.
  - destruct (IH _ H) as [He [f [Hf Hs]]]. split; [exact He|]. exists f. split; [right|]; assumption.
  - inversion H; subst. apply walk_keys_err in Eg as [He Hs].
    split; [exact He|]. exists g. split; [left; reflexivity|exact Hs].
Qed.

Lemma transform_fields_hits record schema acc f :
  In f schema -> path_hits_scalar record (py_split "."%char f) = true ->
  transform_fields record schema acc = Err AttributeError.
Proof.
  revert acc. induction schema as [|g r IH]; intros acc Hf Hs; simpl; [destruct Hf|].
  destruct (walk_keys record (py_split "."%char g)) as [vg|e] eqn:Eg.
  - destruct Hf as [<-|Hf].
    + rewrite walk_keys_hits_scalar in Eg by exact Hs. discriminate Eg.
    + apply IH; assumption.
  - apply walk_keys_err in Eg as [-> _]. reflexivity.
Qed.

(** With a schema of distinct fields, a transformed record has exactly the
    schema's fields as keys, in the schema's order. *)
Theorem transform_record_keys record schema out :
  NoDup schema -> transform_record record schema = Ok out ->
  exists d, out = PDict d /\ map fst d = schema.
Proof.
  intros Hn H. unfold transform_record in H.
  destruct (transform_fields record schema []) as [d|e] eqn:E; [|discriminate H].
  inversion H; subst. exists d. split; [reflexivity|].
  apply (transform_fields_keys record schema [] d Hn); [intros f _ []|exact E].
Qed.

Lemma transform_record_keys_witness :
  transform_record (PDict [("id", PInt 7)]) ["id"; "attributes.sku"]
  = Ok (PDict [("id", PInt 7); ("attributes.sku", PNone)]) /\
  exists d, PDict [("id", PInt 7); ("attributes.sku", PNone)] = PDict d /\
            map fst d = ["id"; "attributes.sku"].
Proof.
  split; [reflexivity|].
  apply (transform_record_keys (PDict [("id", PInt 7)])).
  - constructor; [simpl; intuition discriminate|constructor; [intros []|constructor]].
  - reflexivity.
Defined.

(** A schema field whose dotted path leads through dicts to a value gets
    that value in the transformed record. *)
Theorem transform_record_path_value record schema d field v :
  transform_record record schema = Ok (PDict d) -> In field schema ->
  path_get record (py_split "."%char field) = Some v ->
  assoc_lookup field d = Some v.
Proof.
  intros H Hf Hp. unfold transform_record in H.
  destruct (transform_fields record schema []) as [d'|e] eqn:E; [|discriminate H].
  inversion H; subst.
  destruct (proj1 (transform_fields_lookup _ _ _ _ E field) Hf) as [w [Hw Hl]].
  rewrite walk_keys_path_get with (w := v) in Hw by exact Hp.
  inversion Hw; subst. exact Hl.
Qed.

Lemma transform_record_path_value_witness :
  assoc_lookup "attributes.sku"
    [("id", PInt 7); ("attributes.sku", PStr "A1")] = Some (PStr "A1").
Proof.
  apply (transform_record_path_value
           (PDict [("id", PInt 7); ("attributes", PDict [("sku", PStr "A1")])])
           ["id"; "attributes.sku"]).
  - reflexivity.
  - right; left; reflexivity.
  - reflexivity.
Defined.

(** A schema field whose path meets a missing key or a falsy value is
    [None] in the transformed record. *)
Theorem transform_record_blocked_none record schema d field :
  transform_record record schema = Ok (PDict d) -> In field schema ->
  path_blocked record (py_split "."%char field) = true ->
  assoc_lookup field d = Some PNone.
Proof.
  intros H Hf Hp. unfold transform_record in H.
  destruct (transform_fields record schema []) as [d'|e] eqn:E; [|discriminate H].
  inversion H; subst.
  destruct (proj1 (transform_fields_lookup _ _ _ _ E field) Hf) as [w [Hw Hl]].
  rewrite walk_keys_path_blocked in Hw by exact Hp.
  inversion Hw; subst. exact Hl.
Qed.

Lemma transform_record_blocked_none_witness :
  assoc_lookup "attributes.sku" [("id", PInt 7); ("attributes.sku", PNone)] = Some PNone.
Proof.
  apply (transform_record_blocked_none
           (PDict [("id", PInt 7); ("attributes", PDict [])])
           ["id"; "attributes.sku"]).
  - reflexivity.
  - right; left; reflexivity.
  - reflexivity.
Defined.

(** [transform_record] raises exactly when a schema path meets a truthy
    non-dict before its end, and then only [AttributeError]. *)
Theorem transform_record_raises record schema e :
  transform_record record schema = Err e <->
  e = AttributeError /\
  exists field, In field schema /\ path_hits_scalar record (py_split "."%char field) = true.
Proof.
  unfold transform_record. split.
  - destruct (transform_fields record schema []) as [d|e'] eqn:E; intros H; [discriminate H|].
    inversion H; subst. eapply transform_fields_err; exact E.
  - intros [-> [f [Hf Hs]]]. rewrite (transform_fields_hits _ _ _ f Hf Hs). reflexivity.
Qed.

(** ** create_csv.fetch_order_details and its loop *)

Lemma no_http_error_bind {A B} (m : M A) (k : A -> M B) :
  no_http_error m -> (forall a, no_http_error (k a)) -> no_http_error (bind m k).
Proof.
  intros Hm Hk st r st' H s. unfold bind in H.
  destruct (m st) as [[a|e] st1] eqn:E.
  - exact (Hk a _ _ _ H s).
  - inversion H; subst. intros Heq. inversion Heq; subst.
    apply (Hm _ _ _ E s). reflexivity.
Qed.

Lemma no_http_error_ret {A} (a : A) : no_http_error (ret a).
Proof. intros st r st' H s. inversion H; subst. discriminate. Qed.

Lemma no_http_error_lift {A} (x : result A) :
  (forall s, x <> Err (HTTPError s)) -> no_http_error (lift x).
Proof. intros Hx st r st' H. inversion H; subst. exact Hx. Qed.

Lemma no_http_error_catch_http (m : M pyval) :
  no_http_error (catch_http m (fun _ => ret (PDict []))).
Proof.
  intros st r st' H s. unfold catch_http in H.
  destruct (m st) as [[a|[s'| | |]] st1]; inversion H; subst; discriminate.
Qed.

Lemma py_get_no_http d k v s : py_get d k v <> Err (HTTPError s).
Proof. unfold py_get. destruct d; try discriminate. destruct (assoc_lookup k l); discriminate. Qed.

Lemma flatten_dict_no_http d p sep s : flatten_dict d p sep <> Err (HTTPError s).
Proof. unfold flatten_dict. destruct d; discriminate. Qed.

Section CsvExport.
Variable server : list (request * response) -> request -> response.
Variable api_url : string.

(** One pass of the loop body for a truthy id: one GET, and the rows it
    contributes are those [csv_row] reads off its response. *)
Lemma csv_fetch_row_inv oid token st here st1 :
  (details <- csv_fetch_order_details server api_url oid token ;;
   if truthy details then row <- lift (flatten_dict details "" ".") ;; ret [row]
   else ret []) st = (Ok here, st1) ->
  let q := Get (api_url ++ "/v3/orders/" ++ py_str oid) ("Bearer " ++ py_str token) in
  st1 = mk_st (tap_token st) (clock st) (log st ++ [(q, server (log st) q)])%list /\
  here = csv_row (server (log st) q).
Proof.
  intros H q.
  cbv [csv_fetch_order_details catch_http bind send raise_for_status json lift ret] in H.
  fold q in H. unfold csv_row, data_of.
  set (r := server (log st) q) in *.
  destruct ((400 <=? status r) && (status r <? 600)) eqn:Hs.
  - simpl in H. inversion H; subst. split; reflexivity.
  - cbv beta iota zeta in H.
    destruct (body r) as [j|]; [|discriminate H].
    destruct (py_get j "data" (PDict [])) as [d|[s| | |]] eqn:Eg; try discriminate H;
      [|exfalso; exact (py_get_no_http _ _ _ _ Eg)].
    destruct (truthy d); [|inversion H; subst; split; reflexivity].
    destruct (flatten_dict d "" ".") as [f|e]; inversion H; subst; split; reflexivity.
Qed.

(** An order-details export that completes sends one GET per record with a
    truthy id, in order, authorised with the token from the config and with
    no credential exchange; the cached tap token is untouched; and the rows
    are those read off the responses, an [HTTPError] response giving none. *)
Theorem csv_order_details_loop_run token records st rows st' :
  csv_order_details_loop server api_url token records st = (Ok rows, st') ->
  tap_token st' = tap_token st /\
  exists new, log st' = (log st ++ new)%list /\
    Forall (fun e => is_get_with ("Bearer " ++ py_str token) e = true) new /\
    get_urls new = map (fun r => api_url ++ "/v3/orders/" ++ py_str (id_of r))
                       (filter id_truthy records) /\
    rows = concat (map csv_row (get_responses new)).
Proof.
  revert st rows. induction records as [|record rest IH]; intros st rows H; simpl in H.
  - inversion H; subst. split; [reflexivity|]. exists [].
    rewrite app_nil_r. repeat split; constructor.
  - destruct (bind_ok_inv _ _ _ _ _ H) as (oid & st1 & H1 & H2).
    apply lift_ok_inv in H1 as [Hid ->].
    destruct (bind_ok_inv _ _ _ _ _ H2) as (here & st2 & H3 & H4).
    destruct (bind_ok_inv _ _ _ _ _ H4) as (od & st3 & H5 & H6).
    apply ret_inv in H6 as [<- ->].
    destruct (IH _ _ H5) as (Ht & new & Hl & Hf & Hu & Hr).
    assert (Hio : id_of record = oid) by (unfold id_of; rewrite Hid; reflexivity).
    unfold id_truthy. simpl filter. rewrite Hio.
    destruct (truthy oid) eqn:Htr.
    + apply csv_fetch_row_inv in H3 as [-> ->].
      simpl in Ht, Hl. split; [exact Ht|].
      eexists. split; [rewrite Hl, <- app_assoc; reflexivity|].
      split; [constructor; [apply String.eqb_refl|exact Hf]|].
      simpl. rewrite Hu, Hio. split; [reflexivity|]. rewrite Hr. reflexivity.
    + apply ret_inv in H3 as [<- ->]. split; [exact Ht|].
      exists new. repeat split; assumption.
Qed.

End CsvExport.

Lemma csv_order_details_loop_run_witness :
  exists rows st',
    csv_order_details_loop
      (shop_server sample_orders (status_on (sample_api ++ "/v3/orders/3") 404) plain_entity)
      sample_api (PStr "cfg") csv_sample_records st0 = (Ok rows, st') /\
    tap_token st' = tap_token st0 /\
    exists new, log st' = (log st0 ++ new)%list /\
      Forall (fun e => is_get_with ("Bearer " ++ py_str (PStr "cfg")) e = true) new /\
      get_urls new = map (fun r => sample_api ++ "/v3/orders/" ++ py_str (id_of r))
                         (filter id_truthy csv_sample_records) /\
      rows = concat (map csv_row (get_responses new)).
Proof.
  do 2 eexists. split; [vm_compute; reflexivity|].
  apply (csv_order_details_loop_run
           (shop_server sample_orders (status_on (sample_api ++ "/v3/orders/3") 404) plain_entity)
           sample_api (PStr "cfg") csv_sample_records st0).
  vm_compute. reflexivity.
Defined.

(** create_csv's order-details export never raises [HTTPError]: a failing
    detail request is caught and skipped. *)
Theorem csv_order_details_loop_no_http_error server api_url token records :
  no_http_error (csv_order_details_loop server api_url token records).
Proof.
  induction records as [|record rest IH]; simpl; [apply no_http_error_ret|].
  apply no_http_error_bind; [apply no_http_error_lift, py_get_no_http|intros oid].
  apply no_http_error_bind; [|intros here; apply no_http_error_bind; [exact IH|intros; apply no_http_error_ret]].
  destruct (truthy oid); [|apply no_http_error_ret].
  apply no_http_error_bind; [apply no_http_error_catch_http|intros details].
  destruct (truthy details); [|apply no_http_error_ret].
  apply no_http_error_bind; [apply no_http_error_lift, flatten_dict_no_http|intros; apply no_http_error_ret].
Qed.

(** ** TapAnts2._sync_stream_to_csv *)

Lemma stops_map_transform schema recs :
  stops_at_failure (map_m (fun record => lift (transform_record record schema)) recs).
Proof.
  apply stops_pure. induction recs as [|x r IH]; intros st res st' H; simpl in H.
  - inversion H; reflexivity.
  - unfold bind, lift at 1 in H. destruct (transform_record x schema) as [y|e].
    + unfold bind in H. destruct (map_m _ r st) as [[ys|e] s1] eqn:E.
      * apply IH in E. subst s1. inversion H; reflexivity.
      * apply IH in E. subst s1. inversion H; reflexivity.
    + inversion H; reflexivity.
Qed.

Section Sync.
Variable server : list (request * response) -> request -> response.
Variables api_url username password : string.

Lemma stops_discovered name m :
  find_stream name (discovered_streams server api_url username password) = Some m ->
  stops_at_failure m.
Proof.
  unfold discovered_streams. cbn [find_stream].
  destruct (String.eqb "products" name); [intros H; inversion H; subst; stops_tac; apply stops_stream_get_records|].
  destruct (String.eqb "orders" name); [intros H; inversion H; subst; stops_tac; apply stops_stream_get_records|].
  destruct (String.eqb "order_details" name); [|discriminate].
  intros H; inversion H; subst. unfold order_details_get_records.
  stops_tac; first [apply stops_stream_get_records | apply stops_order_details_loop].
Qed.

Lemma stops_sync_body name schema :
  stops_at_failure
    (records <- (match find_stream name (discovered_streams server api_url username password) with
                 | Some get_records => get_records
                 | None => ret []
                 end) ;;
     match records with
     | [] => ret None
     | _ =>
         transformed <- map_m (fun record => lift (transform_record record schema)) records ;;
         ret (Some transformed)
     end).
Proof.
  apply stops_bind.
  - destruct (find_stream _ _) eqn:E; [exact (stops_discovered _ _ E)|apply stops_ret].
  - intros [|x r]; [apply stops_ret|]. apply stops_bind; [apply stops_map_transform|intros; apply stops_ret].
Qed.

Lemma map_m_lift_err {A B} (g : A -> result B) l x e st :
  In x l -> g x = Err e -> exists e', map_m (fun y => lift (g y)) l st = (Err e', st).
Proof.
  induction l as [|y r IH]; intros Hx Hg; [destruct Hx|]. simpl. unfold bind, lift at 1.
  destruct Hx as [<-|Hx].
  - rewrite Hg. eexists. reflexivity.
  - destruct (g y) as [b|e']; [|eexists; reflexivity].
    destruct (IH Hx Hg) as [e' He']. unfold bind. rewrite He'. eexists. reflexivity.
Qed.

End Sync.

(** [_sync_stream_to_csv] never raises.  Any response with a 4xx or 5xx
    status ends the requests of the sync, and the sync then writes nothing
    (its catch-all handler returns). *)
Theorem sync_stream_to_csv_http_failure server api_url username password name schema st r st' :
  sync_stream_to_csv server api_url username password name schema st = (r, st') ->
  (exists o, r = Ok o) /\
  exists new, log st' = (log st ++ new)%list /\
    forall e, In e new -> raises e = true ->
    r = Ok None /\ exists pre, new = (pre ++ [e])%list.
Proof.
  unfold sync_stream_to_csv, catch_all. intros H.
  pose proof (stops_sync_body server api_url username password name schema) as Hs.
  match type of Hs with stops_at_failure ?m => destruct (m st) as [[o|x] s1] eqn:E end.
  - inversion H; subst. split; [eexists; reflexivity|].
    destruct (Hs _ _ _ E) as (new & Hl & Hr). exists new. split; [exact Hl|].
    intros e He Hf. destruct (Hr e He Hf) as (pre & _ & Hd). discriminate Hd.
  - unfold ret in H. inversion H; subst. split; [eexists; reflexivity|].
    destruct (Hs _ _ _ E) as (new & Hl & Hr). exists new. split; [exact Hl|].
    intros e He Hf. destruct (Hr e He Hf) as (pre & Hp & _). split; [reflexivity|].
    exists pre. exact Hp.
Qed.

Lemma sync_stream_to_csv_http_failure_witness :
  let m := sync_stream_to_csv
             (shop_server sample_orders (status_on (sample_api ++ "/v3/orders/3") 404) plain_entity)
             sample_api "u" "p" "order_details" ["id"] in
  fst (m st0) = Ok None /\
  (exists o, fst (m st0) = Ok o) /\
  exists new, log (snd (m st0)) = (log st0 ++ new)%list /\
    forall e, In e new -> raises e = true ->
    fst (m st0) = Ok None /\ exists pre, new = (pre ++ [e])%list.
Proof.
  intros m. split; [vm_compute; reflexivity|].
  apply (sync_stream_to_csv_http_failure
           (shop_server sample_orders (status_on (sample_api ++ "/v3/orders/3") 404) plain_entity)
           sample_api "u" "p" "order_details" ["id"] st0).
  vm_compute. reflexivity.
Defined.

(** A stream name that [discover_streams] does not produce (such as
    [order_items], whose class it never instantiates) syncs nothing: no
    request is sent and no file is written. *)
Theorem sync_stream_to_csv_unknown_stream server api_url username password name schema st :
  ~ In name ["products"; "orders"; "order_details"] ->
  sync_stream_to_csv server api_url username password name schema st = (Ok None, st).
Proof.
  intros Hn. unfold sync_stream_to_csv, catch_all, discovered_streams. cbn [find_stream].
  destruct (String.eqb_spec "products" name) as [<-|_]; [exfalso; apply Hn; left; reflexivity|].
  destruct (String.eqb_spec "orders" name) as [<-|_]; [exfalso; apply Hn; right; left; reflexivity|].
  destruct (String.eqb_spec "order_details" name) as [<-|_];
    [exfalso; apply Hn; right; right; left; reflexivity|].
  reflexivity.
Qed.

Lemma sync_stream_to_csv_unknown_stream_witness :
  sync_stream_to_csv (shop_server sample_orders all_ok plain_entity) sample_api "u" "p"
    "order_items" ["id"] st0 = (Ok None, st0).
Proof.
  apply sync_stream_to_csv_unknown_stream. simpl. intuition discriminate.
Defined.

(** One record whose schema path meets a truthy non-dict makes the whole
    stream write nothing, however many other records transform well. *)
Theorem sync_stream_to_csv_bad_record server api_url username password name schema st
    get_records recs st1 record field :
  find_stream name (discovered_streams server api_url username password) = Some get_records ->
  get_records st = (Ok recs, st1) ->
  In record recs -> In field schema ->
  path_hits_scalar record (py_split "."%char field) = true ->
  sync_stream_to_csv server api_url username password name schema st = (Ok None, st1).
Proof.
  intros Hf Hg Hr Hfield Hs. unfold sync_stream_to_csv, catch_all, bind at 1.
  rewrite Hf, Hg. destruct recs as [|x xs]; [destruct Hr|].
  assert (Ht : transform_record record schema = Err AttributeError)
    by (unfold transform_record; rewrite (transform_fields_hits _ _ _ field Hfield Hs); reflexivity).
  destruct (map_m_lift_err (fun y => transform_record y schema) (x :: xs) record AttributeError st1 Hr Ht)
    as [e He].
  unfold bind. rewrite He. reflexivity.
Qed.

Lemma sync_stream_to_csv_bad_record_witness :
  let srv := shop_server sample_orders all_ok bad_product_entity in
  let get_products := (v <- stream_get_records srv sample_api "u" "p" "/v3/products" ;;
                       lift (py_iter v)) in
  sync_stream_to_csv srv sample_api "u" "p" "products" ["id"; "attributes.sku"] st0
  = (Ok None, snd (get_products st0)).
Proof.
  intros srv get_products.
  apply (sync_stream_to_csv_bad_record srv sample_api "u" "p" "products" ["id"; "attributes.sku"] st0
           get_products
           [PDict [("id", PInt 1); ("attributes", PDict [("sku", PStr "A1")])];
            PDict [("id", PInt 2); ("attributes", PStr "x")]]
           (snd (get_products st0))
           (PDict [("id", PInt 2); ("attributes", PStr "x")]) "attributes.sku").
  - reflexivity.
  - vm_compute. reflexivity.
  - right; left; reflexivity.
  - right; left; reflexivity.
  - reflexivity.
Defined.

(** ** The cached token authorises every later request *)

Lemma authed_bind {A B} t (m : M A) (k : A -> M B) :
  authed t m -> (forall a, authed t (k a)) -> authed t (bind m k).
Proof.
  intros Hm Hk st r st' Ht H. unfold bind in H.
  destruct (m st) as [[a|e] st1] eqn:E.
  - destruct (Hm _ _ _ Ht E) as (Ht1 & new1 & Hl1 & Hf1).
    destruct (Hk a _ _ _ Ht1 H) as (Ht2 & new2 & Hl2 & Hf2).
    split; [exact Ht2|]. exists (new1 ++ new2)%list.
    rewrite Hl2, Hl1, app_assoc. split; [reflexivity|apply Forall_app; split; assumption].
  - injection H as <- <-. exact (Hm _ _ _ Ht E).
Qed.

Lemma authed_pure {A} t (m : M A) :
  (forall st r st', m st = (r, st') -> st' = st) -> authed t m.
Proof.
  intros Hp st r st' Ht H. apply Hp in H. subst st'. split; [exact Ht|].
  exists []. rewrite app_nil_r. split; [reflexivity|constructor].
Qed.

Lemma authed_ret {A} t (a : A) : authed t (ret a).
Proof. apply authed_pure. intros st r st' H. inversion H. reflexivity. Qed.

Lemma authed_lift {A} t (x : result A) : authed t (lift x).
Proof. apply authed_pure. intros st r st' H. inversion H. reflexivity. Qed.

Lemma authed_raise_for_status t r : authed t (raise_for_status r).
Proof.
  unfold raise_for_status. destruct (_ && _); [apply authed_lift|apply authed_ret].
Qed.

Lemma authed_json t r : authed t (json r).
Proof. unfold json. destruct (body r); [apply authed_ret|apply authed_lift]. Qed.

Ltac authed_tac :=
  repeat first
    [ apply authed_ret | apply authed_lift | apply authed_raise_for_status | apply authed_json
    | match goal with |- authed _ (if ?b then _ else _) => destruct b end
    | match goal with |- authed _ (bind _ _) => apply authed_bind; [ | intros ] end ].

Section Authed.
Variable server : list (request * response) -> request -> response.
Variables api_url username password : string.
Variable t : pyval.
Hypothesis t_truthy : truthy t = true.

Lemma authed_get_prefix {A} url (k : response -> M A) :
  (forall r, authed t (k r)) ->
  authed t (headers <- http_headers server api_url username password ;;
            response <- send server (Get url headers) ;;
            k response).
Proof.
  intros Hk st r st' Ht H.
  assert (Hh : http_headers server api_url username password st = (Ok ("Bearer " ++ py_str t), st)).
  { unfold http_headers, bind. rewrite get_token_cached by (rewrite Ht; exact t_truthy).
    rewrite Ht. reflexivity. }
  unfold bind at 1 in H. rewrite Hh in H. unfold bind, send in H.
  set (q := Get url ("Bearer " ++ py_str t)) in H.
  set (st1 := mk_st (tap_token st) (clock st) (log st ++ [(q, server (log st) q)])) in H.
  destruct (Hk _ st1 r st' Ht H) as (Ht2 & new & Hl & Hf).
  split; [exact Ht2|]. exists ((q, server (log st) q) :: new).
  rewrite Hl. simpl. rewrite <- app_assoc. split; [reflexivity|].
  constructor; [apply String.eqb_refl|exact Hf].
Qed.

Lemma authed_stream_get_records path :
  authed t (stream_get_records server api_url username password path).
Proof. unfold stream_get_records. cbv zeta. apply authed_get_prefix. intros. authed_tac. Qed.

Lemma authed_fetch_one url : authed t (fetch_one server api_url username password url).
Proof. unfold fetch_one. apply authed_get_prefix. intros. authed_tac. Qed.

Lemma authed_order_details_get_records :
  authed t (order_details_get_records server api_url username password).
Proof.
  unfold order_details_get_records. authed_tac; [apply authed_stream_get_records|].
  match goal with |- authed _ (order_details_loop _ _ _ _ ?os) => induction os as [|o os IH] end;
    simpl; authed_tac; first [apply authed_fetch_one | exact IH].
Qed.

Lemma authed_order_items_loop details :
  authed t (order_items_loop server api_url username password details).
Proof.
  induction details as [|d ds IH]; simpl; authed_tac; [|exact IH].
  match goal with |- authed _ (order_items_inner _ _ _ _ ?is) => induction is as [|i is IHi] end;
    simpl; authed_tac; first [apply authed_fetch_one | exact IHi].
Qed.

End Authed.

(** Once a truthy token is cached, the streams send no further credential
    exchange: every request is a GET carrying [Bearer <token>], and the
    cached token stays as it is. *)
Theorem cached_token_authorises server api_url username password t :
  truthy t = true ->
  (forall path, authed t (stream_get_records server api_url username password path)) /\
  authed t (order_details_get_records server api_url username password) /\
  authed t (order_items_get_records server api_url username password).
Proof.
  intros Ht. split; [|split].
  - intros path. apply authed_stream_get_records, Ht.
  - apply authed_order_details_get_records, Ht.
  - unfold order_items_get_records. apply authed_bind.
    + apply authed_order_details_get_records, Ht.
    + intros details. apply authed_order_items_loop, Ht.
Qed.

Lemma cached_token_authorises_witness :
  (forall path, authed (PStr "tok")
     (stream_get_records (shop_server sample_orders all_ok plain_entity) sample_api "u" "p" path)) /\
  authed (PStr "tok") (order_details_get_records (shop_server sample_orders all_ok plain_entity)
                          sample_api "u" "p") /\
  authed (PStr "tok") (order_items_get_records (shop_server sample_orders all_ok plain_entity)
                          sample_api "u" "p").
Proof. apply cached_token_authorises. reflexivity. Defined.

(** ** A falsy [access_token] is never cached *)

Lemma get_token_falsy_step server api_url username password st :
  (forall h q, raises (q, server h q) = false /\
     exists j tk, body (server h q) = Some j /\ py_get j "access_token" PNone = Ok tk /\
                  truthy tk = false) ->
  truthy (tap_token st) = false ->
  let q := Post (api_url ++ "/token") (form_token_request username password) in
  exists tk, truthy tk = false /\
    get_token server api_url username password st
    = (Ok tk, mk_st tk (clock st) (log st ++ [(q, server (log st) q)])%list).
Proof.
  intros Hs Ht q.
  destruct (Hs (log st) q) as (Hr & j & tk & Hb & Hg & Htk).
  exists tk. split; [exact Htk|].
  unfold raises in Hr. cbn [fst snd] in Hr.
  cbv [get_token bind read_token write_token send raise_for_status json lift ret].
  rewrite Ht. cbn [negb]. cbv iota beta zeta. fold q. rewrite Hr, Hb, Hg. reflexivity.
Qed.

(** While the token endpoint answers without a truthy [access_token], every
    call of [get_token] sends a new credential exchange: [n] calls make [n]
    POSTs and nothing is cached. *)
Theorem get_token_falsy_refetches server api_url username password n st :
  (forall h q, raises (q, server h q) = false /\
     exists j tk, body (server h q) = Some j /\ py_get j "access_token" PNone = Ok tk /\
                  truthy tk = false) ->
  truthy (tap_token st) = false ->
  exists ts st', get_token_n server api_url username password n st = (Ok ts, st') /\
    length ts = n /\ truthy (tap_token st') = false /\
    exists new, log st' = (log st ++ new)%list /\ length new = n /\
      Forall (fun e => is_post e = true) new.
Proof.
  intros Hs. revert st. induction n as [|n IH]; intros st Ht.
  - exists [], st. split; [reflexivity|]. split; [reflexivity|]. split; [exact Ht|].
    exists []. rewrite app_nil_r. repeat split; constructor.
  - destruct (get_token_falsy_step server api_url username password st Hs Ht) as (tk & Htk & Hg).
    set (st1 := mk_st tk _ _) in Hg.
    destruct (IH st1 Htk) as (ts & st' & Hn & Hlen & Ht' & new & Hl & Hln & Hp).
    exists (tk :: ts), st'. simpl. unfold bind. rewrite Hg, Hn.
    split; [reflexivity|]. split; [simpl; rewrite Hlen; reflexivity|]. split; [exact Ht'|].
    eexists. split; [rewrite Hl; simpl; rewrite <- app_assoc; reflexivity|].
    split; [simpl; rewrite Hln; reflexivity|]. constructor; [reflexivity|exact Hp].
Qed.

Lemma get_token_falsy_refetches_witness :
  exists ts st', get_token_n (token_server 200 (PDict [("expires_in", PInt 3600)])) sample_api "u" "p" 3 st0
                 = (Ok ts, st') /\
    length ts = 3%nat /\ truthy (tap_token st') = false /\
    exists new, log st' = (log st0 ++ new)%list /\ length new = 3%nat /\
      Forall (fun e => is_post e = true) new.
Proof.
  apply get_token_falsy_refetches; [|reflexivity].
  intros h [u hd|u f]; split; [reflexivity| |reflexivity|].
  - exists (PDict [("data", PList [])]), PNone. repeat split.
  - exists (PDict [("expires_in", PInt 3600)]), PNone. repeat split.
Defined.

(** ** The token step of create_csv's [__main__] *)

Section Startup.
Variable server : list (request * response) -> request -> response.
Variables api_url username password : string.

Lemma csv_startup_expired cfg st :
  token_expired cfg (clock st) = true ->
  csv_startup server api_url username password cfg st
  = (p <- csv_get_token server api_url username password ;;
     update_config_with_token cfg (fst p) (snd p)) st.
Proof.
  unfold token_expired, csv_startup. cbv zeta.
  destruct (cfg_token cfg), (cfg_token_expires_at cfg) as [e|]; try reflexivity.
  intros He. unfold bind at 1, is_token_valid, read_clock, bind at 1, ret.
  apply Z.leb_le in He. replace (clock st <? e) with false by (symmetry; apply Z.ltb_ge; exact He).
  reflexivity.
Qed.

Lemma csv_startup_valid tok e st :
  clock st < e ->
  csv_startup server api_url username password (mk_config (Some tok) (Some e)) st
  = (Ok (mk_config (Some tok) (Some e)), st).
Proof.
  intros He. unfold csv_startup. cbn [cfg_token cfg_token_expires_at].
  unfold bind, is_token_valid, read_clock, bind, ret.
  replace (clock st <? e) with true by (symmetry; apply Z.ltb_lt; exact He).
  reflexivity.
Qed.

Lemma csv_refresh_ok_inv cfg st cfg' st1 :
  (p <- csv_get_token server api_url username password ;;
   update_config_with_token cfg (fst p) (snd p)) st = (Ok cfg', st1) ->
  exists tok e, cfg' = mk_config (Some tok) (Some e).
Proof.
  intros H. destruct (bind_ok_inv _ _ _ _ _ H) as ([tok ei] & s1 & _ & H2).
  unfold update_config_with_token in H2. cbn [fst snd] in H2.
  destruct (bind_ok_inv _ _ _ _ _ H2) as (d & s2 & _ & H3).
  destruct (bind_ok_inv _ _ _ _ _ H3) as (now & s3 & _ & H4).
  apply ret_inv in H4 as [<- _]. eexists _, _. reflexivity.
Qed.

End Startup.

(** When create_csv has to fetch a token and the answer's [expires_in] is
    missing, [None], a string, a list or a dict, [update_config_with_token] raises
    [TypeError] after the credential exchange: the fetched token is not
    stored. *)
Theorem csv_startup_bad_expires_in server api_url username password cfg st kvs v :
  token_expired cfg (clock st) = true ->
  let q := Post (api_url ++ "/token") (form_token_request username password) in
  raises (q, server (log st) q) = false ->
  body (server (log st) q) = Some (PDict kvs) ->
  py_get (PDict kvs) "expires_in" PNone = Ok v ->
  not_a_number v = true ->
  csv_startup server api_url username password cfg st
  = (Err TypeError, mk_st (tap_token st) (clock st) (log st ++ [(q, server (log st) q)])%list).
Proof.
  intros He q Hr Hb Hv Hs.
  rewrite csv_startup_expired by exact He.
  unfold raises in Hr. cbn [fst snd] in Hr.
  cbv [csv_get_token update_config_with_token bind send raise_for_status json lift ret read_clock].
  fold q. rewrite Hr, Hb. cbv iota beta zeta.
  assert (Hs' : seconds_of v = Err TypeError) by (destruct v; try discriminate Hs; reflexivity).
  clear Hs. rename Hs' into Hs.
  destruct (py_get (PDict kvs) "access_token" PNone) as [tk|e] eqn:Ha;
    [|unfold py_get in Ha; destruct (assoc_lookup _ _); discriminate Ha].
  rewrite Hv. cbn [fst snd]. rewrite Hs. reflexivity.
Qed.

Lemma csv_startup_bad_expires_in_witness :
  csv_startup (token_server 200 (PDict [("access_token", PStr "tok")])) sample_api "u" "p"
    (mk_config None None) st0
  = (Err TypeError,
     mk_st PNone 0 [(Post (sample_api ++ "/token") (form_token_request "u" "p"),
                     mk_response 200 (Some (PDict [("access_token", PStr "tok")])))]).
Proof.
  apply (csv_startup_bad_expires_in (token_server 200 (PDict [("access_token", PStr "tok")]))
           sample_api "u" "p" (mk_config None None) st0 [("access_token", PStr "tok")] PNone);
    reflexivity.
Defined.

(** A configuration returned by create_csv's token step always holds both
    a token and an expiry, and a later start before that expiry reuses it
    as it is, without any request. *)
Theorem csv_startup_reused_until_expiry server api_url username password cfg st cfg' st1 :
  csv_startup server api_url username password cfg st = (Ok cfg', st1) ->
  exists tok e, cfg' = mk_config (Some tok) (Some e) /\
    forall st2, clock st2 < e ->
    csv_startup server api_url username password cfg' st2 = (Ok cfg', st2).
Proof.
  intros H.
  assert (Hc : exists tok e, cfg' = mk_config (Some tok) (Some e)).
  { destruct (token_expired cfg (clock st)) eqn:He.
    - rewrite csv_startup_expired in H by exact He. eapply csv_refresh_ok_inv; exact H.
    - unfold token_expired in He. unfold csv_startup in H.
      destruct cfg as [[tk|] [e|]]; cbn [cfg_token cfg_token_expires_at] in He, H; try discriminate He.
      cbv [bind is_token_valid read_clock ret] in H.
      replace (clock st <? e) with true in H by (symmetry; apply Z.ltb_lt, Z.leb_gt, He).
      inversion H; subst. eexists _, _. reflexivity. }
  destruct Hc as (tok & e & ->). exists tok, e. split; [reflexivity|].
  intros st2 Hlt. apply csv_startup_valid, Hlt.
Qed.

Lemma csv_startup_reused_until_expiry_witness :
  exists cfg' st1,
    csv_startup (token_server 200 good_token_body) sample_api "u" "p"
      (mk_config None None) (mk_st PNone 10 []) = (Ok cfg', st1) /\
    exists tok e, cfg' = mk_config (Some tok) (Some e) /\
      forall st2, clock st2 < e ->
      csv_startup (token_server 200 good_token_body) sample_api "u" "p" cfg' st2 = (Ok cfg', st2).
Proof.
  do 2 eexists. split; [vm_compute; reflexivity|].
  eapply (csv_startup_reused_until_expiry (token_server 200 good_token_body) sample_api "u" "p"
           (mk_config None None) (mk_st PNone 10 [])).
  vm_compute. reflexivity.
Defined.

(** ** TapAnts2._sync_order_details_to_csv *)

Lemma sync_order_details_loop_ok server api_url token orders st rows st' :
  sync_order_details_loop server api_url token orders st = (Ok rows, st') -> rows = [] /\ st' = st.
Proof.
  revert st rows. induction orders as [|o os IH]; intros st rows H; simpl in H.
  - inversion H; subst. split; reflexivity.
  - destruct (bind_ok_inv _ _ _ _ _ H) as (oid & st1 & H1 & H2).
    apply lift_ok_inv in H1 as [_ ->].
    destruct (bind_ok_inv _ _ _ _ _ H2) as (here & st2 & H3 & H4).
    destruct (bind_ok_inv _ _ _ _ _ H4) as (od & st3 & H5 & H6).
    apply ret_inv in H6 as [<- ->].
    destruct (truthy oid).
    + destruct (bind_ok_inv _ _ _ _ _ H3) as (d & st4 & _ & H7).
      destruct (bind_ok_inv _ _ _ _ _ H7) as (sc & st5 & H8 & _).
      apply lift_ok_inv in H8 as [H8 _]. discriminate H8.
    + apply ret_inv in H3 as [<- ->]. destruct (IH _ _ H5) as [-> ->]. split; reflexivity.
Qed.

(** [_sync_order_details_to_csv] never writes a row: a run that gets to
    [df.to_csv] has met no order with a truthy id, so its only GET was the
    orders list itself. *)
Theorem sync_order_details_to_csv_no_rows server api_url username password token st rows st' :
  sync_order_details_to_csv server api_url username password token st = (Ok rows, st') ->
  rows = [] /\
  exists new, log st' = (log st ++ new)%list /\ get_urls new = [(api_url ++ orders_path)%string].
Proof.
  intros H. unfold sync_order_details_to_csv in H.
  destruct (bind_ok_inv _ _ _ _ _ H) as (ov & st1 & H1 & H2).
  destruct (bind_ok_inv _ _ _ _ _ H2) as (os & st2 & H3 & H4).
  apply lift_ok_inv in H3 as [_ ->].
  apply sync_order_details_loop_ok in H4 as [-> ->]. split; [reflexivity|].
  destruct (stream_get_records_inv server api_url username password _ _ _ _ H1) as (new & r & Hl & Hu & _).
  exists new. split; assumption.
Qed.

Lemma sync_order_details_to_csv_no_rows_witness :
  exists st',
    sync_order_details_to_csv (shop_server (PList [PDict [("id", PNone)]]) all_ok plain_entity)
      sample_api "u" "p" (PStr "cfg") st0 = (Ok [], st') /\
    [] = @nil pyval /\
    exists new, log st' = (log st0 ++ new)%list /\ get_urls new = [(sample_api ++ orders_path)%string].
Proof.
  eexists. split; [vm_compute; reflexivity|].
  eapply (sync_order_details_to_csv_no_rows
            (shop_server (PList [PDict [("id", PNone)]]) all_ok plain_entity)
            sample_api "u" "p" (PStr "cfg") st0).
  vm_compute. reflexivity.
Defined.
